(** * Satori personalizer: cache and merge core of [GetValue]

    A shallow embedding of [personalizer_satori.go].  [GetValue] resolves a
    flag name from the system type, obtains the flag list and (for two system
    types) the live-event list either straight from the remote source or
    through a per-context cache, and decodes the selected payloads, in order,
    into the object handed out by [system.GetConfig()].

    The function is sequential code around three kinds of mutable state, all
    of which are threaded explicitly here:
    - [cache]: the map [p.cache], keyed by the identity of the context;
    - [heap]: the configuration objects that [GetConfig] hands out by
      reference and that [Decode] writes in place;
    - [calls]: the remote lookups issued so far, with their answers.

    Logging and the reader/writer lock are not modelled: the embedding
    describes one goroutine at a time. *)

From Stdlib Require Import String Ascii ZArith List Bool.
From stdpp Require Import base option list gmap strings.

Import ListNotations.
Local Open Scope string_scope.

(** ** Values of the host runtime *)

(** A [context.Context] is used as a map key, hence by identity. *)
Definition Ctx := positive.

(** Address of a configuration object ([any] holding a pointer). *)
Definition loc := positive.

(** Go [error] values.  [runtime.NewError] builds the first form; every
    other error is known to this code by its [Error()] text only. *)
Inductive error :=
| NewError (message : string) (code : Z)
| ErrorString (message : string).

Definition Error (e : error) : string :=
  match e with
  | NewError m _ => m
  | ErrorString m => m
  end.

(** [strings.Contains]. *)
Fixpoint Contains (s substr : string) : bool :=
  String.prefix substr s ||
  match s with
  | EmptyString => false
  | String _ s' => Contains s' substr
  end.

Module Flag.
Record t := mk { Name : string; Value : string }.
End Flag.

Module LiveEvent.
Record t := mk { Value : string }.
End LiveEvent.

Record FlagList := { Flags : list Flag.t }.
Record LiveEventList := { LiveEvents : list LiveEvent.t }.

(** Modelled from the spec: the enumeration [SystemType] is declared outside
    this file; the thirteen values the [switch] of [GetValue] names are kept
    apart, and [SystemTypeUnknown] stands for every other value, which the
    [switch] sends to its [default] branch. *)
Inductive SystemType :=
| SystemTypeUnknown
| SystemTypeBase
| SystemTypeEnergy
| SystemTypeUnlockables
| SystemTypeTutorials
| SystemTypeLeaderboards
| SystemTypeStats
| SystemTypeTeams
| SystemTypeInventory
| SystemTypeAchievements
| SystemTypeEconomy
| SystemTypeProgression
| SystemTypeEventLeaderboards
| SystemTypeIncentives.

(** ** The remote source *)

(** One remote lookup together with the answer it got.  A lookup answers
    with a list or with an error, never with both absent: [GetValue]
    dereferences the flag list (lines 293 and 387) and, with caching
    disabled, the live-event list (line 315) without a nil check.  With
    caching enabled a nil live-event list without an error would pass for
    "not looked up yet": the slot stays unset and the lookup is made a
    second time in the same call (lines 364 and 372).  That answer is not
    among the answers of this embedding. *)
Inductive Call :=
| FlagsListCall (ctx : Ctx) (id : string) (names : list string)
    (res : FlagList + error)
| LiveEventsListCall (ctx : Ctx) (id : string) (res : LiveEventList + error).

(** [nk.GetSatori()].  The answer may depend on everything asked before, so
    that the same question can be answered differently over time. *)
Record Satori := {
  FlagsList : list Call -> Ctx -> string -> list string -> FlagList + error;
  LiveEventsList : list Call -> Ctx -> string -> LiveEventList + error
}.

Definition isFlagsListCall (c : Call) : bool :=
  match c with FlagsListCall _ _ _ _ => true | _ => false end.

Definition isLiveEventsListCall (c : Call) : bool :=
  match c with LiveEventsListCall _ _ _ => true | _ => false end.

Definition callError (c : Call) : option error :=
  match c with
  | FlagsListCall _ _ _ (inr e) => Some e
  | LiveEventsListCall _ _ (inr e) => Some e
  | _ => None
  end.

(** ** The personalizer *)

Record SatoriPersonalizerCache := {
  flags : FlagList;
  liveEvents : option LiveEventList
}.

(** The fields fixed at construction.  The map [cache] is mutable and lives
    in the [World] below. *)
Record SatoriPersonalizer := {
  publishAuthenticateRequest : bool;
  publishAchievementsEvents : bool;
  publishBaseEvents : bool;
  publishEconomyEvents : bool;
  publishEnergyEvents : bool;
  publishEventLeaderboardsEvents : bool;
  publishIncentivesEvents : bool;
  publishInventoryEvents : bool;
  publishLeaderboardsEvents : bool;
  publishProgressionEvents : bool;
  publishStatsEvents : bool;
  publishTeamsEvents : bool;
  publishTutorialsEvents : bool;
  publishUnlockablesEvents : bool;
  noCache : bool
}.

Definition SatoriPersonalizerOption := SatoriPersonalizer -> SatoriPersonalizer.

Definition SatoriPersonalizerNoCache : SatoriPersonalizerOption := fun p =>
  {| publishAuthenticateRequest := publishAuthenticateRequest p;
     publishAchievementsEvents := publishAchievementsEvents p;
     publishBaseEvents := publishBaseEvents p;
     publishEconomyEvents := publishEconomyEvents p;
     publishEnergyEvents := publishEnergyEvents p;
     publishEventLeaderboardsEvents := publishEventLeaderboardsEvents p;
     publishIncentivesEvents := publishIncentivesEvents p;
     publishInventoryEvents := publishInventoryEvents p;
     publishLeaderboardsEvents := publishLeaderboardsEvents p;
     publishProgressionEvents := publishProgressionEvents p;
     publishStatsEvents := publishStatsEvents p;
     publishTeamsEvents := publishTeamsEvents p;
     publishTutorialsEvents := publishTutorialsEvents p;
     publishUnlockablesEvents := publishUnlockablesEvents p;
     noCache := true |}.

(** The struct as [NewSatoriPersonalizer] builds it, options applied in
    order.  The cache starts empty, see [NewWorld]. *)
Definition NewSatoriPersonalizer (opts : list SatoriPersonalizerOption)
  : SatoriPersonalizer :=
  fold_left (fun s opt => opt s) opts
    {| publishAuthenticateRequest := false;
       publishAchievementsEvents := false;
       publishBaseEvents := false;
       publishEconomyEvents := false;
       publishEnergyEvents := false;
       publishEventLeaderboardsEvents := false;
       publishIncentivesEvents := false;
       publishInventoryEvents := false;
       publishLeaderboardsEvents := false;
       publishProgressionEvents := false;
       publishStatsEvents := false;
       publishTeamsEvents := false;
       publishTutorialsEvents := false;
       publishUnlockablesEvents := false;
       noCache := false |}.

Definition allFlagNames : list string :=
  ["Hiro-Achievements"; "Hiro-Base"; "Hiro-Economy"; "Hiro-Energy";
   "Hiro-Inventory"; "Hiro-Leaderboards"; "Hiro-Teams"; "Hiro-Tutorials";
   "Hiro-Unlockables"; "Hiro-Stats"; "Hiro-Event-Leaderboards";
   "Hiro-Progression"; "Hiro-Incentives"].

(** The [switch] at the head of [GetValue]; [None] is the [default] branch. *)
Definition flagNameOf (t : SystemType) : option string :=
  match t with
  | SystemTypeAchievements => Some "Hiro-Achievements"
  | SystemTypeBase => Some "Hiro-Base"
  | SystemTypeEconomy => Some "Hiro-Economy"
  | SystemTypeEnergy => Some "Hiro-Energy"
  | SystemTypeInventory => Some "Hiro-Inventory"
  | SystemTypeLeaderboards => Some "Hiro-Leaderboards"
  | SystemTypeTeams => Some "Hiro-Teams"
  | SystemTypeTutorials => Some "Hiro-Tutorials"
  | SystemTypeUnlockables => Some "Hiro-Unlockables"
  | SystemTypeStats => Some "Hiro-Stats"
  | SystemTypeEventLeaderboards => Some "Hiro-Event-Leaderboards"
  | SystemTypeProgression => Some "Hiro-Progression"
  | SystemTypeIncentives => Some "Hiro-Incentives"
  | SystemTypeUnknown => None
  end.

(** [s == SystemTypeEventLeaderboards || s == SystemTypeAchievements]. *)
Definition needsLiveEvents (s : SystemType) : bool :=
  match s with
  | SystemTypeEventLeaderboards | SystemTypeAchievements => true
  | _ => false
  end.

(** What [GetValue] returns: [(config, err)]. *)
Definition Returned := (option loc * option error)%type.

(** The block repeated after each remote lookup that failed. *)
Definition remoteFailure (err : error) : Returned :=
  if Contains (Error err) "404 status code" then (None, None)
  else (None, Some err).

(** The last lines of [GetValue]. *)
Definition finish (config : option loc) (found : bool) : Returned :=
  if found then (config, None) else (None, None).

(** ** [GetValue] *)

Section GetValue.

(** The configuration structs are declared by the systems, outside this
    file; [Config] is the type of their contents. *)
Context {Config : Type}.

(** [json.NewDecoder(strings.NewReader(payload))] followed by
    [DisallowUnknownFields()] and [Decode(target)]: the contents of the
    target after the call, and the error returned.  The target is written
    in place, so it has contents after the call whether or not the call
    failed.  Everything proved in this section holds for every such
    function; [jsonDecode] below is the instance used for examples. *)
Variable Decode : string -> Config -> Config * option error.

Record World := {
  cache : gmap Ctx SatoriPersonalizerCache;
  heap : gmap loc Config;
  calls : list Call
}.

(** The interface [System].  [GetConfig] returns a reference; whether it
    is a fresh object or one the system keeps is up to the system, so it
    acts on the heap. *)
Record System := {
  GetType : SystemType;
  GetConfig : gmap loc Config -> loc * gmap loc Config
}.

Definition NewWorld : World :=
  {| cache := ∅; heap := ∅; calls := [] |}.

Definition logCall (c : Call) (w : World) : World :=
  {| cache := cache w; heap := heap w; calls := calls w ++ [c] |}.

Definition setCache (m : gmap Ctx SatoriPersonalizerCache) (w : World)
  : World :=
  {| cache := m; heap := heap w; calls := calls w |}.

Definition setHeap (h : gmap loc Config) (w : World) : World :=
  {| cache := cache w; heap := h; calls := calls w |}.

(** [Decode] through a reference.  A reference to nothing is Go's nil
    pointer, for which [Decode] reports an [InvalidUnmarshalError]. *)
Definition DecodeAt (payload : string) (config : loc)
    (h : gmap loc Config) : gmap loc Config * option error :=
  match h !! config with
  | Some c =>
      let '(c', err) := Decode payload c in (<[config := c']> h, err)
  | None => (h, Some (ErrorString "json: Unmarshal(nil)"))
  end.

(** [for _, liveEvent := range liveEventsList.LiveEvents]: a record whose
    decode fails is passed over with [continue]. *)
Fixpoint decodeLiveEvents (evs : list LiveEvent.t) (config : loc)
    (h : gmap loc Config) (found : bool) : gmap loc Config * bool :=
  match evs with
  | [] => (h, found)
  | liveEvent :: evs' =>
      match DecodeAt (LiveEvent.Value liveEvent) config h with
      | (h', Some _) => decodeLiveEvents evs' config h' found
      | (h', None) => decodeLiveEvents evs' config h' true
      end
  end.

(** [if len(liveEventsList.LiveEvents) > 0 { if config == nil {...}; for ... }]. *)
Definition mergeLiveEvents (system : System) (l : LiveEventList)
    (config : option loc) (h : gmap loc Config) (found : bool)
  : option loc * gmap loc Config * bool :=
  match LiveEvents l with
  | [] => (config, h, found)
  | _ :: _ =>
      let '(c, h1) :=
        match config with
        | Some c => (c, h)
        | None => GetConfig system h
        end in
      let '(h2, found') := decodeLiveEvents (LiveEvents l) c h1 found in
      (Some c, h2, found')
  end.

(** [for _, flag := range cacheEntry.flags.Flags] of the cached path: the
    heap after the loop and either the error that ends the call or the
    values of [config] and [found]. *)
Fixpoint decodeFlags (system : System) (flagName : string)
    (fs : list Flag.t) (config : option loc) (h : gmap loc Config)
    (found : bool) : gmap loc Config * (error + option loc * bool) :=
  match fs with
  | [] => (h, inr (config, found))
  | flag :: fs' =>
      if negb (String.eqb (Flag.Name flag) flagName) then
        decodeFlags system flagName fs' config h found
      else
        let '(c, h1) := GetConfig system h in
        match DecodeAt (Flag.Value flag) c h1 with
        | (h2, Some err) => (h2, inl err)
        | (h2, None) => decodeFlags system flagName fs' (Some c) h2 true
        end
  end.

(** The branch [if p.noCache]. *)
Definition getValueNoCache (ctx : Ctx) (nk : Satori) (system : System)
    (userID flagName : string) (w : World) : Returned * World :=
  let r := FlagsList nk (calls w) ctx userID [flagName] in
  let w1 := logCall (FlagsListCall ctx userID [flagName] r) w in
  match r with
  | inr err => (remoteFailure err, w1)
  | inl flagList =>
      let step :=
        match Flags flagList with
        | flag0 :: _ =>
            let '(c, h1) := GetConfig system (heap w1) in
            match DecodeAt (Flag.Value flag0) c h1 with
            | (h2, Some err) => (h2, inl err)
            | (h2, None) => (h2, inr (Some c, true))
            end
        | [] => (heap w1, inr (None, false))
        end in
      match step with
      | (h2, inl err) => ((None, Some err), setHeap h2 w1)
      | (h2, inr (config, found)) =>
          let w2 := setHeap h2 w1 in
          if needsLiveEvents (GetType system) then
            let r' := LiveEventsList nk (calls w2) ctx userID in
            let w3 := logCall (LiveEventsListCall ctx userID r') w2 in
            match r' with
            | inr err => (remoteFailure err, w3)
            | inl liveEventsList =>
                let '(config', h3, found') :=
                  mergeLiveEvents system liveEventsList config (heap w3)
                    found in
                (finish config' found', setHeap h3 w3)
            end
          else (finish config found, w2)
      end
  end.

(** Cached path, [cacheEntry, found = p.cache[ctx]] and the block
    [if !found]: the entry to work with, or the values returned early. *)
Definition getOrCreate (ctx : Ctx) (nk : Satori) (system : System)
    (userID : string) (w : World)
  : (Returned + SatoriPersonalizerCache) * World :=
  match cache w !! ctx with
  | Some cacheEntry => (inr cacheEntry, w)
  | None =>
      let r := FlagsList nk (calls w) ctx userID allFlagNames in
      let w1 := logCall (FlagsListCall ctx userID allFlagNames r) w in
      match r with
      | inr err => (inl (remoteFailure err), w1)
      | inl flagList =>
          if needsLiveEvents (GetType system) then
            let r' := LiveEventsList nk (calls w1) ctx userID in
            let w2 := logCall (LiveEventsListCall ctx userID r') w1 in
            match r' with
            | inr err => (inl (remoteFailure err), w2)
            | inl liveEventsList =>
                let cacheEntry :=
                  {| flags := flagList;
                     liveEvents := Some liveEventsList |} in
                (inr cacheEntry,
                 setCache (<[ctx := cacheEntry]> (cache w2)) w2)
            end
          else
            let cacheEntry :=
              {| flags := flagList; liveEvents := None |} in
            (inr cacheEntry, setCache (<[ctx := cacheEntry]> (cache w1)) w1)
      end
  end.

(** Cached path, the block guarded by
    [cacheEntry.liveEvents.Load() == nil].  The entry is shared with the
    map, so the store shows in [cache] too. *)
Definition ensureLiveEvents (ctx : Ctx) (nk : Satori) (system : System)
    (userID : string) (cacheEntry : SatoriPersonalizerCache) (w : World)
  : (Returned + SatoriPersonalizerCache) * World :=
  match needsLiveEvents (GetType system), liveEvents cacheEntry with
  | true, None =>
      let r := LiveEventsList nk (calls w) ctx userID in
      let w1 := logCall (LiveEventsListCall ctx userID r) w in
      match r with
      | inr err => (inl (remoteFailure err), w1)
      | inl liveEventsList =>
          let cacheEntry' :=
            {| flags := flags cacheEntry;
               liveEvents := Some liveEventsList |} in
          (inr cacheEntry',
           setCache (<[ctx := cacheEntry']> (cache w1)) w1)
      end
  | _, _ => (inr cacheEntry, w)
  end.

(** Cached path, from [found = false] to the end of the branch. *)
Definition mergeEntry (system : System) (flagName : string)
    (cacheEntry : SatoriPersonalizerCache) (w : World) : Returned * World :=
  match decodeFlags system flagName (Flags (flags cacheEntry)) None
          (heap w) false with
  | (h1, inl err) => ((None, Some err), setHeap h1 w)
  | (h1, inr (config, found)) =>
      match liveEvents cacheEntry with
      | Some liveEventsList =>
          let '(config', h2, found') :=
            mergeLiveEvents system liveEventsList config h1 found in
          (finish config' found', setHeap h2 w)
      | None => (finish config found, setHeap h1 w)
      end
  end.

Definition getValueCached (ctx : Ctx) (nk : Satori) (system : System)
    (userID flagName : string) (w : World) : Returned * World :=
  match getOrCreate ctx nk system userID w with
  | (inl ret, w1) => (ret, w1)
  | (inr cacheEntry, w1) =>
      match ensureLiveEvents ctx nk system userID cacheEntry w1 with
      | (inl ret, w2) => (ret, w2)
      | (inr cacheEntry', w2) => mergeEntry system flagName cacheEntry' w2
      end
  end.

Definition GetValue (p : SatoriPersonalizer) (ctx : Ctx) (nk : Satori)
    (system : System) (userID : string) (w : World) : Returned * World :=
  match flagNameOf (GetType system) with
  | None => ((None, Some (NewError "hiro system type unknown" 3)), w)
  | Some flagName =>
      if noCache p then getValueNoCache ctx nk system userID flagName w
      else getValueCached ctx nk system userID flagName w
  end.

(** The body of one tick of the sweep started by [NewSatoriPersonalizer]:
    [delete(s.cache, cacheCtx)] for every key whose [Err()] is not nil.
    [ctxErr] is the state of the contexts at the time of the tick. *)
Definition sweep (ctxErr : Ctx -> bool)
    (m : gmap Ctx SatoriPersonalizerCache)
  : gmap Ctx SatoriPersonalizerCache :=
  filter (fun kv => ctxErr kv.1 = false) m.

Definition sweepWorld (ctxErr : Ctx -> bool) (w : World) : World :=
  setCache (sweep ctxErr (cache w)) w.

(** What the [select] of the goroutine started by [NewSatoriPersonalizer]
    can take: the context of the constructor is done, or the ticker fired,
    with the state of the cached contexts at that time. *)
Inductive Selected :=
| ctxDone
| tickerC (ctxErr : Ctx -> bool).

(** The loop [for { select {...} }] of that goroutine, run on what the
    [select] takes, in order.  The period of the ticker says when a tick is
    taken, not what is done with it. *)
Fixpoint sweeper (taken : list Selected)
    (m : gmap Ctx SatoriPersonalizerCache)
  : gmap Ctx SatoriPersonalizerCache :=
  match taken with
  | [] => m
  | ctxDone :: _ => m
  | tickerC ctxErr :: rest => sweeper rest (sweep ctxErr m)
  end.







(** Several ticks in a row. *)
Definition sweep_all (sweeps : list (Ctx -> bool))
    (m : gmap Ctx SatoriPersonalizerCache)
  : gmap Ctx SatoriPersonalizerCache :=
  fold_left (fun m ctxErr => sweep ctxErr m) sweeps m.

End GetValue.

Arguments World : clear implicits.
Arguments System : clear implicits.

(** ** A strict decoder for flat objects *)

(** The specification speaks of fields, unknown fields and overwriting.
    To have inputs on which [GetValue] can be run, [jsonDecode] implements
    the part
    of [encoding/json] that such payloads use: the target is a struct of
    integer fields, the payload a JSON object whose members are integers.

    As in [encoding/json], the payload is scanned as a whole before anything
    is written, so a syntax error leaves the target as it was; after that
    the members are stored one by one, and a member without a field only
    records an error ([saveError] keeps the first one) while the members
    around it are still stored.  Text after the first value is not read.
    Keys are compared as they are.  A payload outside this part of JSON is
    reported as a syntax error. *)
Module Json.

Definition ConfigObject := list (string * Z).

Definition dquote : ascii := "034"%char.

Definition quoted (s : string) : string :=
  String dquote (s ++ String dquote "").

Definition isSpace (c : ascii) : bool :=
  match nat_of_ascii c with
  | 32 | 9 | 10 | 13 => true
  | _ => false
  end.

Definition isDigit (c : ascii) : bool :=
  (48 <=? nat_of_ascii c)%nat && (nat_of_ascii c <=? 57)%nat.

Definition digitValue (c : ascii) : Z := Z.of_nat (nat_of_ascii c - 48).

Fixpoint skipSpace (s : string) : string :=
  match s with
  | String c s' => if isSpace c then skipSpace s' else s
  | EmptyString => s
  end.

(** The characters up to the closing quote; escapes are not supported. *)
Fixpoint readKey (s : string) : option (string * string) :=
  match s with
  | EmptyString => None
  | String c s' =>
      if Ascii.eqb c dquote then Some (EmptyString, s')
      else if Ascii.eqb c "\"%char then None
      else match readKey s' with
           | Some (k, rest) => Some (String c k, rest)
           | None => None
           end
  end.

Fixpoint readDigits (s : string) (acc : Z) : Z * string :=
  match s with
  | String c s' =>
      if isDigit c then readDigits s' (10 * acc + digitValue c)%Z
      else (acc, s)
  | EmptyString => (acc, s)
  end.

Definition readNat (s : string) : option (Z * string) :=
  match s with
  | String c s' =>
      if isDigit c then
        match c, s' with
        | "0"%char, String d _ =>
            if isDigit d then None else Some (0%Z, s')
        | _, _ => Some (readDigits s 0)
        end
      else None
  | EmptyString => None
  end.

Definition readInt (s : string) : option (Z * string) :=
  match s with
  | String "-"%char s' =>
      match readNat s' with
      | Some (n, rest) => Some ((- n)%Z, rest)
      | None => None
      end
  | _ => readNat s
  end.

(** One member, [key : value], starting at the opening quote. *)
Definition readMember (s : string) : option (string * Z * string) :=
  match s with
  | String c s1 =>
      if Ascii.eqb c dquote then
        match readKey s1 with
        | Some (k, s2) =>
            match skipSpace s2 with
            | String ":"%char s3 =>
                match readInt (skipSpace s3) with
                | Some (v, s4) => Some (k, v, skipSpace s4)
                | None => None
                end
            | _ => None
            end
        | None => None
        end
      else None
  | EmptyString => None
  end.

(** The members after the opening brace, up to the closing one. *)
Fixpoint readMembers (fuel : nat) (s : string)
  : option (list (string * Z)) :=
  match fuel with
  | O => None
  | S fuel' =>
      match readMember s with
      | Some (k, v, rest) =>
          match rest with
          | String "}"%char _ => Some [(k, v)]
          | String ","%char rest' =>
              match readMembers fuel' (skipSpace rest') with
              | Some ms => Some ((k, v) :: ms)
              | None => None
              end
          | _ => None
          end
      | None => None
      end
  end.

Definition parseObject (s : string) : option (list (string * Z)) :=
  match skipSpace s with
  | String "{"%char s1 =>
      match skipSpace s1 with
      | String "}"%char _ => Some []
      | s2 => readMembers (String.length s2) s2
      end
  | _ => None
  end.

(** Store [v] in field [k]; [None] when the struct has no such field. *)
Fixpoint setField (k : string) (v : Z) (c : ConfigObject)
  : option ConfigObject :=
  match c with
  | [] => None
  | (k', v') :: c' =>
      if String.eqb k' k then Some ((k', v) :: c')
      else match setField k v c' with
           | Some c'' => Some ((k', v') :: c'')
           | None => None
           end
  end.

Fixpoint getField (k : string) (c : ConfigObject) : option Z :=
  match c with
  | [] => None
  | (k', v') :: c' => if String.eqb k' k then Some v' else getField k c'
  end.

Definition unknownField (k : string) : error :=
  ErrorString ("json: unknown field " ++ quoted k).

(** The loop over the members of the object; [saved] is [d.savedError]. *)
Fixpoint storeMembers (ms : list (string * Z)) (c : ConfigObject)
    (saved : option error) : ConfigObject * option error :=
  match ms with
  | [] => (c, saved)
  | (k, v) :: ms' =>
      match setField k v c with
      | Some c' => storeMembers ms' c' saved
      | None =>
          storeMembers ms' c
            (match saved with
             | Some e => Some e
             | None => Some (unknownField k)
             end)
      end
  end.

Definition jsonDecode (payload : string) (target : ConfigObject)
  : ConfigObject * option error :=
  match parseObject payload with
  | Some ms => storeMembers ms target None
  | None => (target, Some (ErrorString "json: syntax error"))
  end.

(** [{"k1": v1, "k2": v2, ...}] as text. *)
Fixpoint showZ_pos (fuel : nat) (n : Z) (acc : string) : string :=
  match fuel with
  | O => acc
  | S fuel' =>
      let d := ascii_of_nat (48 + Z.to_nat (n mod 10)) in
      if (n <? 10)%Z then String d acc
      else showZ_pos fuel' (n / 10)%Z (String d acc)
  end.

Definition showZ (n : Z) : string :=
  if (n <? 0)%Z then String "-"%char (showZ_pos 20 (- n)%Z "")
  else showZ_pos 20 n "".

Fixpoint showMembers (ms : list (string * Z)) : string :=
  match ms with
  | [] => ""
  | [(k, v)] => quoted k ++ ": " ++ showZ v
  | (k, v) :: ms' => quoted k ++ ": " ++ showZ v ++ ", " ++ showMembers ms'
  end.

Definition object (ms : list (string * Z)) : string :=
  "{" ++ showMembers ms ++ "}".

End Json.

(** ** Systems, remote sources and payloads to run [GetValue] on *)

Module Run.
Import Json.

(** A configuration with two integer fields. *)
Definition defaults : ConfigObject :=
  [("rewardMultiplier", 1%Z); ("bonus", 0%Z)].

(** A system whose [GetConfig] returns the object it keeps at [l]. *)
Definition keeping (t : SystemType) (l : loc) : System ConfigObject :=
  {| GetType := t; GetConfig := fun h => (l, h) |}.

(** A system whose [GetConfig] returns a new object each time. *)
Definition allocating (t : SystemType) (d : ConfigObject)
  : System ConfigObject :=
  {| GetType := t;
     GetConfig := fun h => let l := fresh (dom h) in (l, <[l := d]> h) |}.

(** A remote source that gives the same two answers every time. *)
Definition answering (fl : FlagList + error) (le : LiveEventList + error)
  : Satori :=
  {| FlagsList := fun _ _ _ _ => fl; LiveEventsList := fun _ _ _ => le |}.

Definition flagsOf (fs : list (string * list (string * Z))) : FlagList :=
  {| Flags := map (fun f => Flag.mk f.1 (object f.2)) fs |}.

Definition eventsOf (es : list (list (string * Z))) : LiveEventList :=
  {| LiveEvents := map (fun e => LiveEvent.mk (object e)) es |}.

Definition cached : SatoriPersonalizer := NewSatoriPersonalizer [].
Definition uncached : SatoriPersonalizer :=
  NewSatoriPersonalizer [SatoriPersonalizerNoCache].

(** The heap holds the object of the system at address 1. *)
Definition world : World ConfigObject :=
  {| cache := ∅; heap := {[ 1%positive := defaults ]}; calls := [] |}.

Definition notFound : error :=
  ErrorString "satori: unexpected 404 status code".
Definition unavailable : error :=
  ErrorString "satori: unexpected 503 status code".

(** The field [k] of the object that [ret] refers to in [w]. *)
Definition fieldOf (k : string) (ret : Returned)
    (w : World ConfigObject) : option Z :=
  match ret.1 with
  | Some l =>
      match heap w !! l with
      | Some c => getField k c
      | None => None
      end
  | None => None
  end.

(** The context, systems and payloads of the runs below. *)
Definition scope : Ctx := 1%positive.

Definition achievements : System ConfigObject :=
  keeping SystemTypeAchievements 1%positive.

Definition base : System ConfigObject := keeping SystemTypeBase 1%positive.

(** An object with a member for a field and a member without one. *)
Definition mixed : list (string * Z) :=
  [("rewardMultiplier", 7%Z); ("bogus", 1%Z)].

Definition afterMixed : ConfigObject :=
  [("rewardMultiplier", 7%Z); ("bonus", 0%Z)].

Definition multiplier (v : Z) : list (string * Z) :=
  [("rewardMultiplier", v)].

Definition run (p : SatoriPersonalizer) (nk : Satori)
    (system : System ConfigObject) : Returned * World ConfigObject :=
  GetValue jsonDecode p scope nk system "user" world.

(** The flag sets rewardMultiplier to 2, one live event sets it to 3. *)
Definition scenario : Satori :=
  answering (inl (flagsOf [("Hiro-Achievements", multiplier 2)]))
    (inl (eventsOf [multiplier 3])).

(** The same, followed by a live event with a member without a field. *)
Definition scenarioThenMixed : Satori :=
  answering (inl (flagsOf [("Hiro-Achievements", multiplier 2)]))
    (inl (eventsOf [multiplier 3; mixed])).

End Run.

(** ** Options and what the publishers read *)

(** The other options.  Each one is a closure that sets one field of the
    struct to [true]; [SatoriPersonalizerOption] has an unexported method,
    so these fifteen constructors are all the options there are. *)
Definition SatoriPersonalizerPublishAuthenticateEvents : SatoriPersonalizerOption := fun p =>
  {| publishAuthenticateRequest := true;
     publishAchievementsEvents := publishAchievementsEvents p;
     publishBaseEvents := publishBaseEvents p;
     publishEconomyEvents := publishEconomyEvents p;
     publishEnergyEvents := publishEnergyEvents p;
     publishEventLeaderboardsEvents := publishEventLeaderboardsEvents p;
     publishIncentivesEvents := publishIncentivesEvents p;
     publishInventoryEvents := publishInventoryEvents p;
     publishLeaderboardsEvents := publishLeaderboardsEvents p;
     publishProgressionEvents := publishProgressionEvents p;
     publishStatsEvents := publishStatsEvents p;
     publishTeamsEvents := publishTeamsEvents p;
     publishTutorialsEvents := publishTutorialsEvents p;
     publishUnlockablesEvents := publishUnlockablesEvents p;
     noCache := noCache p |}.

Definition SatoriPersonalizerPublishAchievementsEvents : SatoriPersonalizerOption := fun p =>
  {| publishAuthenticateRequest := publishAuthenticateRequest p;
     publishAchievementsEvents := true;
     publishBaseEvents := publishBaseEvents p;
     publishEconomyEvents := publishEconomyEvents p;
     publishEnergyEvents := publishEnergyEvents p;
     publishEventLeaderboardsEvents := publishEventLeaderboardsEvents p;
     publishIncentivesEvents := publishIncentivesEvents p;
     publishInventoryEvents := publishInventoryEvents p;
     publishLeaderboardsEvents := publishLeaderboardsEvents p;
     publishProgressionEvents := publishProgressionEvents p;
     publishStatsEvents := publishStatsEvents p;
     publishTeamsEvents := publishTeamsEvents p;
     publishTutorialsEvents := publishTutorialsEvents p;
     publishUnlockablesEvents := publishUnlockablesEvents p;
     noCache := noCache p |}.

Definition SatoriPersonalizerPublishBaseEvents : SatoriPersonalizerOption := fun p =>
  {| publishAuthenticateRequest := publishAuthenticateRequest p;
     publishAchievementsEvents := publishAchievementsEvents p;
     publishBaseEvents := true;
     publishEconomyEvents := publishEconomyEvents p;
     publishEnergyEvents := publishEnergyEvents p;
     publishEventLeaderboardsEvents := publishEventLeaderboardsEvents p;
     publishIncentivesEvents := publishIncentivesEvents p;
     publishInventoryEvents := publishInventoryEvents p;
     publishLeaderboardsEvents := publishLeaderboardsEvents p;
     publishProgressionEvents := publishProgressionEvents p;
     publishStatsEvents := publishStatsEvents p;
     publishTeamsEvents := publishTeamsEvents p;
     publishTutorialsEvents := publishTutorialsEvents p;
     publishUnlockablesEvents := publishUnlockablesEvents p;
     noCache := noCache p |}.

Definition SatoriPersonalizerPublishEconomyEvents : SatoriPersonalizerOption := fun p =>
  {| publishAuthenticateRequest := publishAuthenticateRequest p;
     publishAchievementsEvents := publishAchievementsEvents p;
     publishBaseEvents := publishBaseEvents p;
     publishEconomyEvents := true;
     publishEnergyEvents := publishEnergyEvents p;
     publishEventLeaderboardsEvents := publishEventLeaderboardsEvents p;
     publishIncentivesEvents := publishIncentivesEvents p;
     publishInventoryEvents := publishInventoryEvents p;
     publishLeaderboardsEvents := publishLeaderboardsEvents p;
     publishProgressionEvents := publishProgressionEvents p;
     publishStatsEvents := publishStatsEvents p;
     publishTeamsEvents := publishTeamsEvents p;
     publishTutorialsEvents := publishTutorialsEvents p;
     publishUnlockablesEvents := publishUnlockablesEvents p;
     noCache := noCache p |}.

Definition SatoriPersonalizerPublishEnergyEvents : SatoriPersonalizerOption := fun p =>
  {| publishAuthenticateRequest := publishAuthenticateRequest p;
     publishAchievementsEvents := publishAchievementsEvents p;
     publishBaseEvents := publishBaseEvents p;
     publishEconomyEvents := publishEconomyEvents p;
     publishEnergyEvents := true;
     publishEventLeaderboardsEvents := publishEventLeaderboardsEvents p;
     publishIncentivesEvents := publishIncentivesEvents p;
     publishInventoryEvents := publishInventoryEvents p;
     publishLeaderboardsEvents := publishLeaderboardsEvents p;
     publishProgressionEvents := publishProgressionEvents p;
     publishStatsEvents := publishStatsEvents p;
     publishTeamsEvents := publishTeamsEvents p;
     publishTutorialsEvents := publishTutorialsEvents p;
     publishUnlockablesEvents := publishUnlockablesEvents p;
     noCache := noCache p |}.

Definition SatoriPersonalizerPublishEventLeaderboardsEvents : SatoriPersonalizerOption := fun p =>
  {| publishAuthenticateRequest := publishAuthenticateRequest p;
     publishAchievementsEvents := publishAchievementsEvents p;
     publishBaseEvents := publishBaseEvents p;
     publishEconomyEvents := publishEconomyEvents p;
     publishEnergyEvents := publishEnergyEvents p;
     publishEventLeaderboardsEvents := true;
     publishIncentivesEvents := publishIncentivesEvents p;
     publishInventoryEvents := publishInventoryEvents p;
     publishLeaderboardsEvents := publishLeaderboardsEvents p;
     publishProgressionEvents := publishProgressionEvents p;
     publishStatsEvents := publishStatsEvents p;
     publishTeamsEvents := publishTeamsEvents p;
     publishTutorialsEvents := publishTutorialsEvents p;
     publishUnlockablesEvents := publishUnlockablesEvents p;
     noCache := noCache p |}.

Definition SatoriPersonalizerPublishIncentivesEvents : SatoriPersonalizerOption := fun p =>
  {| publishAuthenticateRequest := publishAuthenticateRequest p;
     publishAchievementsEvents := publishAchievementsEvents p;
     publishBaseEvents := publishBaseEvents p;
     publishEconomyEvents := publishEconomyEvents p;
     publishEnergyEvents := publishEnergyEvents p;
     publishEventLeaderboardsEvents := publishEventLeaderboardsEvents p;
     publishIncentivesEvents := true;
     publishInventoryEvents := publishInventoryEvents p;
     publishLeaderboardsEvents := publishLeaderboardsEvents p;
     publishProgressionEvents := publishProgressionEvents p;
     publishStatsEvents := publishStatsEvents p;
     publishTeamsEvents := publishTeamsEvents p;
     publishTutorialsEvents := publishTutorialsEvents p;
     publishUnlockablesEvents := publishUnlockablesEvents p;
     noCache := noCache p |}.

Definition SatoriPersonalizerPublishInventoryEvents : SatoriPersonalizerOption := fun p =>
  {| publishAuthenticateRequest := publishAuthenticateRequest p;
     publishAchievementsEvents := publishAchievementsEvents p;
     publishBaseEvents := publishBaseEvents p;
     publishEconomyEvents := publishEconomyEvents p;
     publishEnergyEvents := publishEnergyEvents p;
     publishEventLeaderboardsEvents := publishEventLeaderboardsEvents p;
     publishIncentivesEvents := publishIncentivesEvents p;
     publishInventoryEvents := true;
     publishLeaderboardsEvents := publishLeaderboardsEvents p;
     publishProgressionEvents := publishProgressionEvents p;
     publishStatsEvents := publishStatsEvents p;
     publishTeamsEvents := publishTeamsEvents p;
     publishTutorialsEvents := publishTutorialsEvents p;
     publishUnlockablesEvents := publishUnlockablesEvents p;
     noCache := noCache p |}.

Definition SatoriPersonalizerPublishLeaderboardsEvents : SatoriPersonalizerOption := fun p =>
  {| publishAuthenticateRequest := publishAuthenticateRequest p;
     publishAchievementsEvents := publishAchievementsEvents p;
     publishBaseEvents := publishBaseEvents p;
     publishEconomyEvents := publishEconomyEvents p;
     publishEnergyEvents := publishEnergyEvents p;
     publishEventLeaderboardsEvents := publishEventLeaderboardsEvents p;
     publishIncentivesEvents := publishIncentivesEvents p;
     publishInventoryEvents := publishInventoryEvents p;
     publishLeaderboardsEvents := true;
     publishProgressionEvents := publishProgressionEvents p;
     publishStatsEvents := publishStatsEvents p;
     publishTeamsEvents := publishTeamsEvents p;
     publishTutorialsEvents := publishTutorialsEvents p;
     publishUnlockablesEvents := publishUnlockablesEvents p;
     noCache := noCache p |}.

Definition SatoriPersonalizerPublishProgressionEvents : SatoriPersonalizerOption := fun p =>
  {| publishAuthenticateRequest := publishAuthenticateRequest p;
     publishAchievementsEvents := publishAchievementsEvents p;
     publishBaseEvents := publishBaseEvents p;
     publishEconomyEvents := publishEconomyEvents p;
     publishEnergyEvents := publishEnergyEvents p;
     publishEventLeaderboardsEvents := publishEventLeaderboardsEvents p;
     publishIncentivesEvents := publishIncentivesEvents p;
     publishInventoryEvents := publishInventoryEvents p;
     publishLeaderboardsEvents := publishLeaderboardsEvents p;
     publishProgressionEvents := true;
     publishStatsEvents := publishStatsEvents p;
     publishTeamsEvents := publishTeamsEvents p;
     publishTutorialsEvents := publishTutorialsEvents p;
     publishUnlockablesEvents := publishUnlockablesEvents p;
     noCache := noCache p |}.

Definition SatoriPersonalizerPublishStatsEvents : SatoriPersonalizerOption := fun p =>
  {| publishAuthenticateRequest := publishAuthenticateRequest p;
     publishAchievementsEvents := publishAchievementsEvents p;
     publishBaseEvents := publishBaseEvents p;
     publishEconomyEvents := publishEconomyEvents p;
     publishEnergyEvents := publishEnergyEvents p;
     publishEventLeaderboardsEvents := publishEventLeaderboardsEvents p;
     publishIncentivesEvents := publishIncentivesEvents p;
     publishInventoryEvents := publishInventoryEvents p;
     publishLeaderboardsEvents := publishLeaderboardsEvents p;
     publishProgressionEvents := publishProgressionEvents p;
     publishStatsEvents := true;
     publishTeamsEvents := publishTeamsEvents p;
     publishTutorialsEvents := publishTutorialsEvents p;
     publishUnlockablesEvents := publishUnlockablesEvents p;
     noCache := noCache p |}.

Definition SatoriPersonalizerPublishTeamsEvents : SatoriPersonalizerOption := fun p =>
  {| publishAuthenticateRequest := publishAuthenticateRequest p;
     publishAchievementsEvents := publishAchievementsEvents p;
     publishBaseEvents := publishBaseEvents p;
     publishEconomyEvents := publishEconomyEvents p;
     publishEnergyEvents := publishEnergyEvents p;
     publishEventLeaderboardsEvents := publishEventLeaderboardsEvents p;
     publishIncentivesEvents := publishIncentivesEvents p;
     publishInventoryEvents := publishInventoryEvents p;
     publishLeaderboardsEvents := publishLeaderboardsEvents p;
     publishProgressionEvents := publishProgressionEvents p;
     publishStatsEvents := publishStatsEvents p;
     publishTeamsEvents := true;
     publishTutorialsEvents := publishTutorialsEvents p;
     publishUnlockablesEvents := publishUnlockablesEvents p;
     noCache := noCache p |}.

Definition SatoriPersonalizerPublishTutorialsEvents : SatoriPersonalizerOption := fun p =>
  {| publishAuthenticateRequest := publishAuthenticateRequest p;
     publishAchievementsEvents := publishAchievementsEvents p;
     publishBaseEvents := publishBaseEvents p;
     publishEconomyEvents := publishEconomyEvents p;
     publishEnergyEvents := publishEnergyEvents p;
     publishEventLeaderboardsEvents := publishEventLeaderboardsEvents p;
     publishIncentivesEvents := publishIncentivesEvents p;
     publishInventoryEvents := publishInventoryEvents p;
     publishLeaderboardsEvents := publishLeaderboardsEvents p;
     publishProgressionEvents := publishProgressionEvents p;
     publishStatsEvents := publishStatsEvents p;
     publishTeamsEvents := publishTeamsEvents p;
     publishTutorialsEvents := true;
     publishUnlockablesEvents := publishUnlockablesEvents p;
     noCache := noCache p |}.

Definition SatoriPersonalizerPublishUnlockablesEvents : SatoriPersonalizerOption := fun p =>
  {| publishAuthenticateRequest := publishAuthenticateRequest p;
     publishAchievementsEvents := publishAchievementsEvents p;
     publishBaseEvents := publishBaseEvents p;
     publishEconomyEvents := publishEconomyEvents p;
     publishEnergyEvents := publishEnergyEvents p;
     publishEventLeaderboardsEvents := publishEventLeaderboardsEvents p;
     publishIncentivesEvents := publishIncentivesEvents p;
     publishInventoryEvents := publishInventoryEvents p;
     publishLeaderboardsEvents := publishLeaderboardsEvents p;
     publishProgressionEvents := publishProgressionEvents p;
     publishStatsEvents := publishStatsEvents p;
     publishTeamsEvents := publishTeamsEvents p;
     publishTutorialsEvents := publishTutorialsEvents p;
     publishUnlockablesEvents := true;
     noCache := noCache p |}.

(** The options by name, to speak of the list handed to
    [NewSatoriPersonalizer]. *)
Inductive OptionName :=
| OptPublishAuthenticateEvents
| OptPublishAchievementsEvents
| OptPublishBaseEvents
| OptPublishEconomyEvents
| OptPublishEnergyEvents
| OptPublishEventLeaderboardsEvents
| OptPublishIncentivesEvents
| OptPublishInventoryEvents
| OptPublishLeaderboardsEvents
| OptPublishProgressionEvents
| OptPublishStatsEvents
| OptPublishTeamsEvents
| OptPublishTutorialsEvents
| OptPublishUnlockablesEvents
| OptNoCache.

Definition optionOf (o : OptionName) : SatoriPersonalizerOption :=
  match o with
  | OptPublishAuthenticateEvents => SatoriPersonalizerPublishAuthenticateEvents
  | OptPublishAchievementsEvents => SatoriPersonalizerPublishAchievementsEvents
  | OptPublishBaseEvents => SatoriPersonalizerPublishBaseEvents
  | OptPublishEconomyEvents => SatoriPersonalizerPublishEconomyEvents
  | OptPublishEnergyEvents => SatoriPersonalizerPublishEnergyEvents
  | OptPublishEventLeaderboardsEvents => SatoriPersonalizerPublishEventLeaderboardsEvents
  | OptPublishIncentivesEvents => SatoriPersonalizerPublishIncentivesEvents
  | OptPublishInventoryEvents => SatoriPersonalizerPublishInventoryEvents
  | OptPublishLeaderboardsEvents => SatoriPersonalizerPublishLeaderboardsEvents
  | OptPublishProgressionEvents => SatoriPersonalizerPublishProgressionEvents
  | OptPublishStatsEvents => SatoriPersonalizerPublishStatsEvents
  | OptPublishTeamsEvents => SatoriPersonalizerPublishTeamsEvents
  | OptPublishTutorialsEvents => SatoriPersonalizerPublishTutorialsEvents
  | OptPublishUnlockablesEvents => SatoriPersonalizerPublishUnlockablesEvents
  | OptNoCache => SatoriPersonalizerNoCache
  end.

(** The methods of [SatoriPublisher]. *)
Definition IsPublishAuthenticateRequest (p : SatoriPersonalizer) : bool :=
  publishAuthenticateRequest p.

Definition IsPublishAchievementsEvents (p : SatoriPersonalizer) : bool :=
  publishAchievementsEvents p.

Definition IsPublishBaseEvents (p : SatoriPersonalizer) : bool :=
  publishBaseEvents p.

Definition IsPublishEconomyEvents (p : SatoriPersonalizer) : bool :=
  publishEconomyEvents p.

Definition IsPublishEnergyEvents (p : SatoriPersonalizer) : bool :=
  publishEnergyEvents p.

Definition IsPublishEventLeaderboardsEvents (p : SatoriPersonalizer) : bool :=
  publishEventLeaderboardsEvents p.

Definition IsPublishIncentivesEvents (p : SatoriPersonalizer) : bool :=
  publishIncentivesEvents p.

Definition IsPublishInventoryEvents (p : SatoriPersonalizer) : bool :=
  publishInventoryEvents p.

Definition IsPublishLeaderboardsEvents (p : SatoriPersonalizer) : bool :=
  publishLeaderboardsEvents p.

Definition IsPublishProgressionEvents (p : SatoriPersonalizer) : bool :=
  publishProgressionEvents p.

Definition IsPublishStatsEvents (p : SatoriPersonalizer) : bool :=
  publishStatsEvents p.

Definition IsPublishTeamsEvents (p : SatoriPersonalizer) : bool :=
  publishTeamsEvents p.

Definition IsPublishTutorialsEvents (p : SatoriPersonalizer) : bool :=
  publishTutorialsEvents p.

Definition IsPublishUnlockablesEvents (p : SatoriPersonalizer) : bool :=
  publishUnlockablesEvents p.

(** The field an option sets, as read back from the struct. *)
Definition isSet (o : OptionName) (p : SatoriPersonalizer) : bool :=
  match o with
  | OptPublishAuthenticateEvents => IsPublishAuthenticateRequest p
  | OptPublishAchievementsEvents => IsPublishAchievementsEvents p
  | OptPublishBaseEvents => IsPublishBaseEvents p
  | OptPublishEconomyEvents => IsPublishEconomyEvents p
  | OptPublishEnergyEvents => IsPublishEnergyEvents p
  | OptPublishEventLeaderboardsEvents => IsPublishEventLeaderboardsEvents p
  | OptPublishIncentivesEvents => IsPublishIncentivesEvents p
  | OptPublishInventoryEvents => IsPublishInventoryEvents p
  | OptPublishLeaderboardsEvents => IsPublishLeaderboardsEvents p
  | OptPublishProgressionEvents => IsPublishProgressionEvents p
  | OptPublishStatsEvents => IsPublishStatsEvents p
  | OptPublishTeamsEvents => IsPublishTeamsEvents p
  | OptPublishTutorialsEvents => IsPublishTutorialsEvents p
  | OptPublishUnlockablesEvents => IsPublishUnlockablesEvents p
  | OptNoCache => noCache p
  end.

Global Instance OptionName_eq_dec : EqDecision OptionName.
Proof. solve_decision. Defined.

(** ** Notions used to state the properties *)

Section Notions.

Context {Config : Type}.
Variable Decode : string -> Config -> Config * option error.

(** The remote lookups made between two worlds. *)
Definition issued (w w' : World Config) : list Call :=
  drop (length (calls w)) (calls w').

(** What a sequence of payloads, decoded one after the other onto the
    same object, leaves in it. *)
Definition decodeAll (payloads : list string) (c : Config) : Config :=
  fold_left (fun c payload => (Decode payload c).1) payloads c.

(** Whether one of them is decoded without an error. *)
Fixpoint anyDecoded (payloads : list string) (c : Config) : bool :=
  match payloads with
  | [] => false
  | payload :: rest =>
      match Decode payload c with
      | (c', None) => true
      | (c', Some _) => anyDecoded rest c'
      end
  end.

(** The last of them that is decoded without an error, if any. *)
Fixpoint lastDecoded (payloads : list string) (c : Config)
    (last : option string) : option string :=
  match payloads with
  | [] => last
  | payload :: rest =>
      match Decode payload c with
      | (c', None) => lastDecoded rest c' (Some payload)
      | (c', Some _) => lastDecoded rest c' last
      end
  end.

Definition liveEventValues (l : LiveEventList) : list string :=
  map LiveEvent.Value (LiveEvents l).

(** The live-event payloads a cache entry holds, none while the slot is
    unset. *)
Definition entryLiveEventValues (ce : SatoriPersonalizerCache)
  : list string :=
  match liveEvents ce with
  | Some l => liveEventValues l
  | None => []
  end.

(** The records of a flag list that carry the name [flagName]. *)
Definition named (flagName : string) (fl : FlagList) : list Flag.t :=
  filter (fun flag => Flag.Name flag = flagName) (Flags fl).

(** The flag lookups among some remote lookups. *)
Definition flagsListCalls (cs : list Call) : list Call :=
  filter (fun call => isFlagsListCall call = true) cs.

(** [GetConfig] hands out the object at [cfg], whose contents are [c]. *)
Definition handsOut (system : System Config) (h : gmap loc Config)
    (cfg : loc) (h1 : gmap loc Config) (c : Config) : Prop :=
  GetConfig system h = (cfg, h1) /\ h1 !! cfg = Some c.

(** Caching disabled: the remote source answers the flag lookup of the
    call with [fl]. *)
Definition flagsAnswered (p : SatoriPersonalizer) (ctx : Ctx) (nk : Satori)
    (system : System Config) (userID : string) (w : World Config)
    (flagName : string) (fl : FlagList) : Prop :=
  noCache p = true /\
  flagNameOf (GetType system) = Some flagName /\
  FlagsList nk (calls w) ctx userID [flagName] = inl fl.

(** Caching disabled: the system type asks for live events and the remote
    source answers the lookup that follows the flag lookup with [l]. *)
Definition liveEventsAnswered (ctx : Ctx) (nk : Satori)
    (system : System Config) (userID : string) (w : World Config)
    (flagName : string) (fl : FlagList) (l : LiveEventList) : Prop :=
  needsLiveEvents (GetType system) = true /\
  LiveEventsList nk
    (calls w ++ [FlagsListCall ctx userID [flagName] (inl fl)]) ctx userID =
    inl l.

(** Caching enabled: no remote lookup of the call fails, and [ce] is the
    entry the cache holds for the context when the call returns. *)
Definition entryMerged (p : SatoriPersonalizer) (ctx : Ctx) (nk : Satori)
    (system : System Config) (userID : string) (w : World Config)
    (flagName : string) (ce : SatoriPersonalizerCache) : Prop :=
  noCache p = false /\
  flagNameOf (GetType system) = Some flagName /\
  Forall (fun call => callError call = None)
    (issued w (GetValue Decode p ctx nk system userID w).2) /\
  cache (GetValue Decode p ctx nk system userID w).2 !! ctx = Some ce.

(** What happens to one personalizer over time, as far as one context is
    concerned: calls of [GetValue] on that context, for any systems and
    users, and ticks of the sweep in between. *)
Inductive Step :=
| callStep (system : System Config) (userID : string)
| tickStep (ctxErr : Ctx -> bool).

Fixpoint runSteps (p : SatoriPersonalizer) (ctx : Ctx) (nk : Satori)
    (steps : list Step) (w : World Config) : World Config :=
  match steps with
  | [] => w
  | callStep system userID :: rest =>
      runSteps p ctx nk rest (GetValue Decode p ctx nk system userID w).2
  | tickStep ctxErr :: rest => runSteps p ctx nk rest (sweepWorld ctxErr w)
  end.

End Notions.

(** * Properties *)

Section Properties.

Context {Config : Type}.
Variable Decode : string -> Config -> Config * option error.

Implicit Types (w : World Config) (system : System Config).
Implicit Types (h : gmap loc Config) (c : Config).


(** *** The loops *)

Lemma DecodeAt_lookup payload l h c :
  h !! l = Some c ->
  DecodeAt Decode payload l h =
    (<[l := (Decode payload c).1]> h, (Decode payload c).2).
Proof.
  intros Hl. unfold DecodeAt. rewrite Hl.
  by destruct (Decode payload c).
Qed.

Lemma decodeLiveEvents_lookup evs l h c found :
  h !! l = Some c ->
  decodeLiveEvents Decode evs l h found =
    (<[l := decodeAll Decode (map LiveEvent.Value evs) c]> h,
     found || anyDecoded Decode (map LiveEvent.Value evs) c).
Proof.
  revert h c found.
  induction evs as [|ev evs IH]; intros h c found Hl; simpl.
  - by rewrite insert_id, orb_false_r.
  - rewrite (DecodeAt_lookup _ _ _ _ Hl).
    destruct (Decode (LiveEvent.Value ev) c) as [c' [err|]] eqn:E; simpl.
    + rewrite (IH _ c') by apply lookup_insert_eq.
      by rewrite insert_insert_eq.
    + rewrite (IH _ c') by apply lookup_insert_eq.
      by rewrite insert_insert_eq, orb_true_r.
Qed.

Lemma decodeFlags_named system flagName fs config h found :
  decodeFlags Decode system flagName fs config h found =
  decodeFlags Decode system flagName
    (filter (fun flag => Flag.Name flag = flagName) fs) config h found.
Proof.
  revert config h found.
  induction fs as [|flag fs IH]; intros config h found; [done|].
  rewrite filter_cons. simpl.
  destruct (String.eqb_spec (Flag.Name flag) flagName) as [Heq|Hne]; simpl.
  - rewrite decide_True by done. simpl.
    apply String.eqb_eq in Heq. rewrite Heq. simpl.
    destruct (GetConfig system h) as [c h1].
    destruct (DecodeAt _ _ _ _) as [h2 [err|]]; [done|apply IH].
  - rewrite decide_False by done. apply IH.
Qed.

(** *** Remote lookups of one call *)

Lemma issued_refl w : issued w w = [].
Proof. unfold issued. apply drop_all. Qed.

Lemma issued_app w w' cs :
  calls w' = (calls w ++ cs)%list -> issued w w' = cs.
Proof. unfold issued. intros ->. apply drop_app_length. Qed.

Ltac unfold_GetValue :=
  unfold GetValue, getValueNoCache, getValueCached, getOrCreate,
    ensureLiveEvents, mergeEntry, mergeLiveEvents in *.

Ltac simpl_world :=
  unfold logCall, setHeap, setCache in *; simpl in *.

Ltac simpl_issued H :=
  unfold issued in H; simpl in H;
  rewrite <- ?app_assoc in H; rewrite ?drop_app_length, ?drop_all in H;
  simpl in H.

Ltac elem_of_calls H :=
  repeat (let E := fresh "E" in
          apply elem_of_cons in H as [E|H]; [simplify_eq/=|]);
  try (by apply elem_of_nil in H).

(** Every remote lookup that fails ends the call at once, with the values
    of [remoteFailure]. *)
Lemma GetValue_remote_failure p ctx nk system userID w call e :
  call ∈ issued w (GetValue Decode p ctx nk system userID w).2 ->
  callError call = Some e ->
  (GetValue Decode p ctx nk system userID w).1 = remoteFailure e.
Proof.
  intros Hin Herr. unfold_GetValue.
  repeat case_match; simpl_world; simplify_eq/=; simpl_issued Hin;
    elem_of_calls Hin; by simplify_eq/=.
Qed.

Lemma GetValue_calls p ctx nk system userID w :
  calls (GetValue Decode p ctx nk system userID w).2 =
    (calls w ++ issued w (GetValue Decode p ctx nk system userID w).2)%list.
Proof.
  unfold issued. unfold_GetValue.
  repeat case_match; simpl_world; simplify_eq/=;
    rewrite <- ?app_assoc, ?drop_app_length, ?drop_all, ?app_nil_r; done.
Qed.

Lemma GetValue_unknown p ctx nk system userID w :
  flagNameOf (GetType system) = None ->
  GetValue Decode p ctx nk system userID w =
    ((None, Some (NewError "hiro system type unknown" 3)), w).
Proof. intros H. unfold GetValue. by rewrite H. Qed.

(** A call that returns an error returns no configuration with it. *)
Lemma GetValue_error_nil p ctx nk system userID w e :
  (GetValue Decode p ctx nk system userID w).1.2 = Some e ->
  (GetValue Decode p ctx nk system userID w).1.1 = None.
Proof.
  unfold_GetValue. unfold finish, remoteFailure.
  repeat case_match; simpl_world; simplify_eq/=; done.
Qed.

(** The flag lookups of a call: none on a cache hit, at most one in any
    case, and in the cached path always for [allFlagNames]. *)
Lemma GetValue_cached_hit_no_FlagsList p ctx nk system userID w call :
  noCache p = false ->
  is_Some (cache w !! ctx) ->
  call ∈ issued w (GetValue Decode p ctx nk system userID w).2 ->
  isFlagsListCall call = false.
Proof.
  intros Hp [ce Hce] Hin. unfold_GetValue. rewrite Hp, ?Hce in Hin.
  repeat case_match; simpl_world; simplify_eq/=; simpl_issued Hin;
    elem_of_calls Hin; by simplify_eq/=.
Qed.

Lemma GetValue_FlagsList_once p ctx nk system userID w :
  length (filter (fun call => isFlagsListCall call = true)
            (issued w (GetValue Decode p ctx nk system userID w).2)) <= 1.
Proof.
  unfold issued. unfold_GetValue.
  repeat case_match; simpl_world; simplify_eq/=;
    rewrite <- ?app_assoc, ?drop_app_length, ?drop_all; simpl;
    try done; by (auto with arith).
Qed.

Lemma GetValue_cached_FlagsList_names p ctx nk system userID w ctx' id names
    res :
  noCache p = false ->
  FlagsListCall ctx' id names res
    ∈ issued w (GetValue Decode p ctx nk system userID w).2 ->
  ctx' = ctx /\ id = userID /\ names = allFlagNames.
Proof.
  intros Hp Hin. unfold_GetValue. rewrite Hp in Hin.
  repeat case_match; simpl_world; simplify_eq/=; simpl_issued Hin;
    elem_of_calls Hin; by simplify_eq/=.
Qed.

Lemma GetValue_noCache_FlagsList p ctx nk system userID w flagName :
  noCache p = true ->
  flagNameOf (GetType system) = Some flagName ->
  filter (fun call => isFlagsListCall call = true)
    (issued w (GetValue Decode p ctx nk system userID w).2) =
  [FlagsListCall ctx userID [flagName]
     (FlagsList nk (calls w) ctx userID [flagName])].
Proof.
  intros Hp Hn. unfold issued. unfold_GetValue. rewrite Hn, Hp.
  repeat case_match; simpl_world; simplify_eq/=;
    rewrite <- ?app_assoc, ?drop_app_length, ?drop_all; simpl; done.
Qed.

Lemma GetValue_noCache_cache p ctx nk system userID w :
  noCache p = true ->
  cache (GetValue Decode p ctx nk system userID w).2 = cache w.
Proof.
  intros Hp. unfold_GetValue. rewrite Hp.
  repeat case_match; simpl_world; simplify_eq/=; done.
Qed.

(** In the cached path, a call whose lookups all succeed leaves an entry
    for its context, unless the system type is unknown. *)
Lemma GetValue_cached_entry p ctx nk system userID w flagName :
  noCache p = false ->
  flagNameOf (GetType system) = Some flagName ->
  Forall (fun call => callError call = None)
    (issued w (GetValue Decode p ctx nk system userID w).2) ->
  is_Some (cache (GetValue Decode p ctx nk system userID w).2 !! ctx).
Proof.
  intros Hp Hn Hok. unfold_GetValue. rewrite Hn, Hp in *.
  repeat case_match; simpl_world; simplify_eq/=;
    try (by rewrite lookup_insert_eq); try (by eexists);
    exfalso; simpl_issued Hok;
    repeat (apply Forall_cons in Hok as [? Hok]); by simplify_eq/=.
Qed.

(** *** The cache across one call and across a sweep *)

Lemma sweep_lookup_active ctxErr (m : gmap Ctx SatoriPersonalizerCache) k :
  ctxErr k = false -> sweep ctxErr m !! k = m !! k.
Proof.
  intros Hk. unfold sweep. destruct (m !! k) as [ce|] eqn:E.
  - by apply map_lookup_filter_Some.
  - apply map_lookup_filter_None. left. done.
Qed.

Lemma sweep_lookup_ended ctxErr (m : gmap Ctx SatoriPersonalizerCache) k :
  ctxErr k = true -> sweep ctxErr m !! k = None.
Proof.
  intros Hk. unfold sweep. apply map_lookup_filter_None. right.
  intros ce _. simpl. by rewrite Hk.
Qed.

(** One tick removes the entries of the contexts that have ended and
    leaves the others as they are; nothing is removed once the context of
    the constructor is done. *)
Lemma sweeper_tick ctxErr rest (m : gmap Ctx SatoriPersonalizerCache) k :
  sweeper (tickerC ctxErr :: rest) m = sweeper rest (sweep ctxErr m) /\
  sweep ctxErr m !! k = (if ctxErr k then None else m !! k).
Proof.
  split; [done|]. destruct (ctxErr k) eqn:E.
  - by apply sweep_lookup_ended.
  - by apply sweep_lookup_active.
Qed.

Lemma sweeper_done rest (m : gmap Ctx SatoriPersonalizerCache) :
  sweeper (ctxDone :: rest) m = m.
Proof. done. Qed.

Lemma sweeps_lookup_active (sweeps : list (Ctx -> bool)) w k :
  Forall (fun ctxErr => ctxErr k = false) sweeps ->
  cache (fold_left (fun w ctxErr => sweepWorld ctxErr w) sweeps w) !! k =
    cache w !! k.
Proof.
  revert w. induction sweeps as [|ctxErr sweeps IH]; intros w Hs; [done|].
  apply Forall_cons in Hs as [Hk Hs]. simpl. rewrite IH by done.
  simpl. by apply sweep_lookup_active.
Qed.

Lemma sweeps_cache (sweeps : list (Ctx -> bool)) w :
  cache (fold_left (fun w ctxErr => sweepWorld ctxErr w) sweeps w) =
    sweep_all sweeps (cache w).
Proof.
  revert w. induction sweeps as [|ctxErr sweeps IH]; intros w; [done|].
  simpl. by rewrite IH.
Qed.

Lemma sweeps_calls (sweeps : list (Ctx -> bool)) w :
  calls (fold_left (fun w ctxErr => sweepWorld ctxErr w) sweeps w) = calls w.
Proof.
  revert w. induction sweeps as [|ctxErr sweeps IH]; intros w; [done|].
  simpl. by rewrite IH.
Qed.

(** An entry that is in the cache before a call is there after it, with
    the same flags, and with the same live events if it had any. *)
Lemma GetValue_cache_entry_kept p ctx nk system userID w k ce :
  cache w !! k = Some ce ->
  exists ce',
    cache (GetValue Decode p ctx nk system userID w).2 !! k = Some ce' /\
    flags ce' = flags ce /\
    (forall l, liveEvents ce = Some l -> liveEvents ce' = Some l).
Proof.
  intros Hk. unfold_GetValue.
  repeat case_match; simpl_world; simplify_eq/=;
    try (by eexists; split; [done|split; [done|congruence]]).
  all: destruct (decide (k = ctx)) as [->|Hne]; simplify_map_eq/=.
  all: eexists; split; [done|split; [done|congruence]].
Qed.

(** With caching, nothing is looked up when the entry of the context holds
    live events already, and the cache is left as it is. *)
Lemma GetValue_cached_set_no_lookup p ctx nk system userID w ce l :
  noCache p = false ->
  cache w !! ctx = Some ce ->
  liveEvents ce = Some l ->
  issued w (GetValue Decode p ctx nk system userID w).2 = [] /\
  cache (GetValue Decode p ctx nk system userID w).2 = cache w.
Proof.
  intros Hp Hce Hl. unfold issued. unfold_GetValue. rewrite Hp, Hce, Hl.
  repeat case_match; simpl_world; simplify_eq/=; by rewrite drop_all.
Qed.

Lemma GetValue_LiveEventsList_needs p ctx nk system userID w call :
  call ∈ issued w (GetValue Decode p ctx nk system userID w).2 ->
  isLiveEventsListCall call = true ->
  needsLiveEvents (GetType system) = true.
Proof.
  intros Hin Hl. unfold_GetValue.
  repeat case_match; simpl_world; simplify_eq/=; simpl_issued Hin;
    elem_of_calls Hin; by simplify_eq/=.
Qed.

(** When the system type asks for live events, they are looked up unless
    the call ended before that or the cache has them. *)
Lemma GetValue_needs_LiveEventsList p ctx nk system userID w :
  needsLiveEvents (GetType system) = true ->
  (exists call, call ∈ issued w (GetValue Decode p ctx nk system userID w).2 /\
     isLiveEventsListCall call = true) \/
  (exists call e, call ∈ issued w (GetValue Decode p ctx nk system userID w).2 /\
     isFlagsListCall call = true /\ callError call = Some e) \/
  (noCache p = true /\
   exists e, (GetValue Decode p ctx nk system userID w).1 = (None, Some e)) \/
  (noCache p = false /\
   exists ce l, cache w !! ctx = Some ce /\ liveEvents ce = Some l).
Proof.
  intros Hn. unfold issued. unfold_GetValue.
  destruct (GetType system); try discriminate Hn; simpl.
  all: repeat case_match; simpl_world; simplify_eq/=;
    rewrite <- ?app_assoc, ?drop_app_length, ?drop_all; simpl.
  all: try (by left; eexists; split; [apply list_elem_of_here|]).
  all: try (by left; eexists; split;
              [apply list_elem_of_further, list_elem_of_here|]).
  all: try (by right; left; eexists _, _; split;
              [apply list_elem_of_here|]).
  all: try (by right; right; left; split; [|eexists]).
  all: try (by right; right; right; split; [|eexists _, _]).
Qed.

(** *** The merge *)

Lemma mergeLiveEvents_found system l h cfg c :
  h !! cfg = Some c ->
  mergeLiveEvents Decode system l (Some cfg) h true =
    (Some cfg, <[cfg := decodeAll Decode (liveEventValues l) c]> h, true).
Proof.
  intros Hc. unfold mergeLiveEvents, liveEventValues.
  destruct (LiveEvents l) as [|ev evs] eqn:E.
  - simpl. by rewrite insert_id.
  - by rewrite (decodeLiveEvents_lookup _ _ _ c).
Qed.

Lemma mergeLiveEvents_first system l h cfg h1 c :
  LiveEvents l <> [] ->
  GetConfig system h = (cfg, h1) ->
  h1 !! cfg = Some c ->
  mergeLiveEvents Decode system l None h false =
    (Some cfg, <[cfg := decodeAll Decode (liveEventValues l) c]> h1,
     anyDecoded Decode (liveEventValues l) c).
Proof.
  intros Hne Hg Hc. unfold mergeLiveEvents, liveEventValues.
  destruct (LiveEvents l) as [|ev evs] eqn:E; [done|].
  rewrite Hg. by rewrite (decodeLiveEvents_lookup _ _ _ c).
Qed.

(** Caching disabled: the first record of the answer is decoded, and a
    failure of that decode ends the call. *)
Lemma noCache_flag_error p ctx nk system userID w flagName fl flag0 rest cfg
    h1 h2 err :
  noCache p = true ->
  flagNameOf (GetType system) = Some flagName ->
  FlagsList nk (calls w) ctx userID [flagName] = inl fl ->
  Flags fl = flag0 :: rest ->
  GetConfig system (heap w) = (cfg, h1) ->
  DecodeAt Decode (Flag.Value flag0) cfg h1 = (h2, Some err) ->
  GetValue Decode p ctx nk system userID w =
    ((None, Some err),
     setHeap h2 (logCall (FlagsListCall ctx userID [flagName] (inl fl)) w)).
Proof.
  intros Hp Hn Hf Hfl Hg Hd. unfold_GetValue.
  rewrite Hn, Hp, Hf, Hfl. simpl. by rewrite Hg, Hd.
Qed.

Lemma noCache_flag_only p ctx nk system userID w flagName fl flag0 rest cfg
    h1 c :
  noCache p = true ->
  flagNameOf (GetType system) = Some flagName ->
  FlagsList nk (calls w) ctx userID [flagName] = inl fl ->
  Flags fl = flag0 :: rest ->
  GetConfig system (heap w) = (cfg, h1) ->
  h1 !! cfg = Some c ->
  (Decode (Flag.Value flag0) c).2 = None ->
  needsLiveEvents (GetType system) = false ->
  GetValue Decode p ctx nk system userID w =
    ((Some cfg, None),
     setHeap (<[cfg := (Decode (Flag.Value flag0) c).1]> h1)
       (logCall (FlagsListCall ctx userID [flagName] (inl fl)) w)).
Proof.
  intros Hp Hn Hf Hfl Hg Hc Hd Hl. unfold_GetValue.
  rewrite Hn, Hp, Hf, Hfl. simpl.
  rewrite Hg, (DecodeAt_lookup _ _ _ _ Hc), Hd, Hl. done.
Qed.

Lemma noCache_flag_then_events p ctx nk system userID w flagName fl flag0
    rest cfg h1 c l :
  noCache p = true ->
  flagNameOf (GetType system) = Some flagName ->
  FlagsList nk (calls w) ctx userID [flagName] = inl fl ->
  Flags fl = flag0 :: rest ->
  GetConfig system (heap w) = (cfg, h1) ->
  h1 !! cfg = Some c ->
  (Decode (Flag.Value flag0) c).2 = None ->
  LiveEventsList nk
    (calls w ++ [FlagsListCall ctx userID [flagName] (inl fl)]) ctx userID =
    inl l ->
  needsLiveEvents (GetType system) = true ->
  (GetValue Decode p ctx nk system userID w).1 = (Some cfg, None) /\
  heap (GetValue Decode p ctx nk system userID w).2 =
    <[cfg := decodeAll Decode (liveEventValues l)
               (Decode (Flag.Value flag0) c).1]> h1.
Proof.
  intros Hp Hn Hf Hfl Hg Hc Hd Hle Hl. unfold GetValue,
    getValueNoCache.
  rewrite Hn, Hp, Hf, Hfl. simpl.
  rewrite Hg, (DecodeAt_lookup _ _ _ _ Hc), Hd, Hl. simpl. rewrite Hle.
  erewrite mergeLiveEvents_found by apply lookup_insert_eq.
  simpl. by rewrite insert_insert_eq.
Qed.

Lemma noCache_no_flag p ctx nk system userID w flagName fl :
  noCache p = true ->
  flagNameOf (GetType system) = Some flagName ->
  FlagsList nk (calls w) ctx userID [flagName] = inl fl ->
  Flags fl = [] ->
  needsLiveEvents (GetType system) = false ->
  (GetValue Decode p ctx nk system userID w).1 = (None, None).
Proof.
  intros Hp Hn Hf Hfl Hl. unfold_GetValue.
  rewrite Hn, Hp, Hf, Hfl. simpl. by rewrite Hl.
Qed.

Lemma noCache_events_only p ctx nk system userID w flagName fl l :
  noCache p = true ->
  flagNameOf (GetType system) = Some flagName ->
  FlagsList nk (calls w) ctx userID [flagName] = inl fl ->
  Flags fl = [] ->
  LiveEventsList nk
    (calls w ++ [FlagsListCall ctx userID [flagName] (inl fl)]) ctx userID =
    inl l ->
  needsLiveEvents (GetType system) = true ->
  (LiveEvents l = [] ->
   (GetValue Decode p ctx nk system userID w).1 = (None, None)) /\
  (forall cfg h1 c,
     LiveEvents l <> [] ->
     GetConfig system (heap w) = (cfg, h1) ->
     h1 !! cfg = Some c ->
     (GetValue Decode p ctx nk system userID w).1 =
       finish (Some cfg) (anyDecoded Decode (liveEventValues l) c) /\
     heap (GetValue Decode p ctx nk system userID w).2 =
       <[cfg := decodeAll Decode (liveEventValues l) c]> h1).
Proof.
  intros Hp Hn Hf Hfl Hle Hl. unfold GetValue, getValueNoCache.
  rewrite Hn, Hp, Hf, Hfl. simpl. rewrite Hl, Hle. split.
  - intros He. unfold mergeLiveEvents. by rewrite He.
  - intros cfg h1 c Hne Hg Hc. simpl.
    by rewrite (mergeLiveEvents_first _ _ _ _ _ _ Hne Hg Hc).
Qed.

(** Caching enabled: the merge reads the world through its heap only. *)
Lemma mergeEntry_heap system flagName ce w w' :
  heap w = heap w' ->
  (mergeEntry Decode system flagName ce w).1 =
    (mergeEntry Decode system flagName ce w').1 /\
  heap (mergeEntry Decode system flagName ce w).2 =
    heap (mergeEntry Decode system flagName ce w').2.
Proof.
  intros Hh. unfold mergeEntry. rewrite Hh.
  repeat case_match; simpl_world; simplify_eq/=; done.
Qed.

Lemma mergeEntry_cache system flagName ce w :
  cache (mergeEntry Decode system flagName ce w).2 = cache w /\
  calls (mergeEntry Decode system flagName ce w).2 = calls w.
Proof.
  unfold mergeEntry. repeat case_match; simpl_world; simplify_eq/=; done.
Qed.

(** Caching enabled: a call whose remote lookups all succeed reaches the
    merge, and merges the entry that the cache holds for the context when
    the call returns. *)
Lemma cached_reaches_merge p ctx nk system userID w flagName :
  noCache p = false ->
  flagNameOf (GetType system) = Some flagName ->
  Forall (fun call => callError call = None)
    (issued w (GetValue Decode p ctx nk system userID w).2) ->
  exists ce,
    cache (GetValue Decode p ctx nk system userID w).2 !! ctx = Some ce /\
    (GetValue Decode p ctx nk system userID w).1 =
      (mergeEntry Decode system flagName ce w).1 /\
    heap (GetValue Decode p ctx nk system userID w).2 =
      heap (mergeEntry Decode system flagName ce w).2.
Proof.
  intros Hp Hn Hok.
  unfold GetValue, getValueCached, getOrCreate, ensureLiveEvents
    in *.
  rewrite Hn, Hp in *.
  repeat case_match; simpl_world; simplify_eq/=;
    try (exfalso; simpl_issued Hok;
         repeat (apply Forall_cons in Hok as [? Hok]); by simplify_eq/=).
  all: match goal with
       | |- context [mergeEntry Decode ?sys ?fn ?ce ?w'] =>
           exists ce;
           destruct (mergeEntry_cache sys fn ce w') as [-> _];
           split; [by simplify_map_eq/=|];
           by apply mergeEntry_heap
       end.
Qed.

Lemma mergeEntry_flag_error system flagName ce w flag0 rest cfg h1 h2 err :
  named flagName (flags ce) = flag0 :: rest ->
  GetConfig system (heap w) = (cfg, h1) ->
  DecodeAt Decode (Flag.Value flag0) cfg h1 = (h2, Some err) ->
  mergeEntry Decode system flagName ce w = ((None, Some err), setHeap h2 w).
Proof.
  unfold named. intros Hf Hg Hd. unfold mergeEntry.
  rewrite decodeFlags_named, Hf. simpl.
  assert (Flag.Name flag0 = flagName) as Hname.
  { assert (flag0 ∈ filter (fun flag => Flag.Name flag = flagName)
              (Flags (flags ce))) as Hin by (rewrite Hf; left).
    by apply list_elem_of_filter in Hin as [? _]. }
  rewrite Hname, String.eqb_refl. simpl. by rewrite Hg, Hd.
Qed.

Lemma flag_name_of_named flagName fl flag0 rest :
  named flagName fl = flag0 :: rest -> Flag.Name flag0 = flagName.
Proof.
  unfold named. intros Hf.
  assert (flag0 ∈ filter (fun flag => Flag.Name flag = flagName) (Flags fl))
    as Hin by (rewrite Hf; left).
  by apply list_elem_of_filter in Hin as [? _].
Qed.

Lemma mergeEntry_one_flag system flagName ce w flag0 cfg h1 c :
  named flagName (flags ce) = [flag0] ->
  GetConfig system (heap w) = (cfg, h1) ->
  h1 !! cfg = Some c ->
  (Decode (Flag.Value flag0) c).2 = None ->
  (mergeEntry Decode system flagName ce w).1 = (Some cfg, None) /\
  heap (mergeEntry Decode system flagName ce w).2 =
    <[cfg := decodeAll Decode (entryLiveEventValues ce)
               (Decode (Flag.Value flag0) c).1]> h1.
Proof.
  intros Hf Hg Hc Hd. pose proof (flag_name_of_named _ _ _ _ Hf) as Hname.
  unfold named in Hf. unfold mergeEntry, entryLiveEventValues.
  rewrite decodeFlags_named, Hf. simpl.
  rewrite Hname, String.eqb_refl. simpl.
  rewrite Hg, (DecodeAt_lookup _ _ _ _ Hc), Hd.
  destruct (liveEvents ce) as [l|]; [|done].
  erewrite mergeLiveEvents_found by apply lookup_insert_eq.
  simpl. by rewrite insert_insert_eq.
Qed.

Lemma mergeEntry_no_flag system flagName ce w :
  named flagName (flags ce) = [] ->
  (entryLiveEventValues ce = [] ->
   (mergeEntry Decode system flagName ce w).1 = (None, None)) /\
  (forall cfg h1 c,
     entryLiveEventValues ce <> [] ->
     GetConfig system (heap w) = (cfg, h1) ->
     h1 !! cfg = Some c ->
     (mergeEntry Decode system flagName ce w).1 =
       finish (Some cfg) (anyDecoded Decode (entryLiveEventValues ce) c) /\
     heap (mergeEntry Decode system flagName ce w).2 =
       <[cfg := decodeAll Decode (entryLiveEventValues ce) c]> h1).
Proof.
  unfold named. intros Hf. unfold mergeEntry, entryLiveEventValues.
  rewrite decodeFlags_named, Hf. simpl.
  destruct (liveEvents ce) as [l|]; [|by split].
  split.
  - unfold liveEventValues, mergeLiveEvents. intros He.
    apply map_eq_nil in He. by rewrite He.
  - intros cfg h1 c Hne Hg Hc.
    assert (LiveEvents l <> []) as Hne'.
    { intros He. apply Hne. unfold liveEventValues. by rewrite He. }
    by rewrite (mergeLiveEvents_first _ _ _ _ _ _ Hne' Hg Hc).
Qed.

Lemma GetValue_failure_last p ctx nk system userID w call e :
  call ∈ issued w (GetValue Decode p ctx nk system userID w).2 ->
  callError call = Some e ->
  exists before,
    issued w (GetValue Decode p ctx nk system userID w).2 = (before ++ [call])%list.
Proof.
  intros Hin Herr. unfold_GetValue.
  repeat case_match; simpl_world; simplify_eq/=; simpl_issued Hin;
    elem_of_calls Hin; simplify_eq/=; unfold issued; simpl;
    rewrite <- ?app_assoc, ?drop_app_length; simpl.
  all: try (by exists []).
  all: try (by eexists [_]).
Qed.

(** *** The claims that hold for every decoder *)

(** C4.  When a remote lookup of a call fails, be it the flag list or the
    live-event list, the call ends there, nothing is looked up after it, and
    it returns [(nil, nil)] if the text of the error contains
    "404 status code", the not-found condition, and [(nil, err)] with that
    same error otherwise. *)
Theorem remote_failure_ends_call p ctx nk system userID w call e :
  call ∈ issued w (GetValue Decode p ctx nk system userID w).2 ->
  callError call = Some e ->
  (Contains (Error e) "404 status code" = true ->
   (GetValue Decode p ctx nk system userID w).1 = (None, None)) /\
  (Contains (Error e) "404 status code" = false ->
   (GetValue Decode p ctx nk system userID w).1 = (None, Some e)) /\
  (exists before,
     issued w (GetValue Decode p ctx nk system userID w).2 =
       (before ++ [call])%list).
Proof.
  intros Hin Herr.
  pose proof (GetValue_remote_failure _ _ _ _ _ _ _ _ Hin Herr) as Hret.
  unfold remoteFailure in Hret. repeat split.
  - intros H404. by rewrite H404 in Hret.
  - intros H404. by rewrite H404 in Hret.
  - by eapply GetValue_failure_last.
Qed.

Lemma entryMerged_merge p ctx nk system userID w flagName ce :
  entryMerged Decode p ctx nk system userID w flagName ce ->
  (GetValue Decode p ctx nk system userID w).1 =
    (mergeEntry Decode system flagName ce w).1 /\
  heap (GetValue Decode p ctx nk system userID w).2 =
    heap (mergeEntry Decode system flagName ce w).2.
Proof.
  intros (Hp & Hn & Hok & Hce).
  destruct (cached_reaches_merge _ _ _ _ _ _ _ Hp Hn Hok)
    as (ce' & Hce' & Hret & Hheap).
  by simplify_eq.
Qed.

(** C9.  With caching disabled the first record of the answer is decoded
    whatever its name is: the statement puts no condition on
    [Flag.Name flag0].  A failure of that decode is returned; otherwise the
    object that received the payload is returned (here for a system type
    without live events).  With caching enabled only the records that carry
    the resolved name are decoded: when the entry has none, and no live
    events, nothing is returned and the heap is left as it was. *)
Theorem first_flag_decoded_whatever_its_name p ctx nk system userID w
    flagName :
  (forall fl flag0 rest cfg h1 c,
     flagsAnswered p ctx nk system userID w flagName fl ->
     Flags fl = flag0 :: rest ->
     handsOut system (heap w) cfg h1 c ->
     (forall err,
        (Decode (Flag.Value flag0) c).2 = Some err ->
        (GetValue Decode p ctx nk system userID w).1 = (None, Some err)) /\
     ((Decode (Flag.Value flag0) c).2 = None ->
      needsLiveEvents (GetType system) = false ->
      (GetValue Decode p ctx nk system userID w).1 = (Some cfg, None) /\
      heap (GetValue Decode p ctx nk system userID w).2 !! cfg =
        Some (Decode (Flag.Value flag0) c).1)) /\
  (forall ce,
     entryMerged Decode p ctx nk system userID w flagName ce ->
     named flagName (flags ce) = [] ->
     entryLiveEventValues ce = [] ->
     (GetValue Decode p ctx nk system userID w).1 = (None, None) /\
     heap (GetValue Decode p ctx nk system userID w).2 = heap w) /\
  (forall ce flag0 cfg h1 c,
     entryMerged Decode p ctx nk system userID w flagName ce ->
     named flagName (flags ce) = [flag0] ->
     handsOut system (heap w) cfg h1 c ->
     (Decode (Flag.Value flag0) c).2 = None ->
     (GetValue Decode p ctx nk system userID w).1 = (Some cfg, None) /\
     heap (GetValue Decode p ctx nk system userID w).2 !! cfg =
       Some (decodeAll Decode (entryLiveEventValues ce)
               (Decode (Flag.Value flag0) c).1)).
Proof.
  split; [|split].
  - intros fl flag0 rest cfg h1 c (Hp & Hn & Hf) Hfl [Hg Hc]. split.
    + intros err Hd.
      erewrite noCache_flag_error; eauto.
      rewrite (DecodeAt_lookup _ _ _ _ Hc). by rewrite Hd.
    + intros Hd Hl. erewrite noCache_flag_only by eauto.
      split; [done|]. simpl. apply lookup_insert_eq.
  - intros ce Hce Hf He.
    destruct (entryMerged_merge _ _ _ _ _ _ _ _ Hce) as [-> ->].
    split.
    + by apply mergeEntry_no_flag.
    + unfold named in Hf. unfold entryLiveEventValues in He.
      unfold mergeEntry. rewrite decodeFlags_named, Hf. simpl.
      destruct (liveEvents ce) as [l|]; [|done].
      unfold liveEventValues in He. apply map_eq_nil in He.
      unfold mergeLiveEvents. by rewrite He.
  - intros ce flag0 cfg h1 c Hce Hf [Hg Hc] Hd.
    destruct (entryMerged_merge _ _ _ _ _ _ _ _ Hce) as [-> ->].
    destruct (mergeEntry_one_flag _ _ _ w _ _ _ _ Hf Hg Hc Hd) as [-> ->].
    split; [done|]. apply lookup_insert_eq.
Qed.

(** The live-event records alone: the call finds something exactly when
    one of them is decoded without an error, while the object holds what
    all of them, decoded in order, have left in it. *)
Lemma live_events_alone p ctx nk system userID w flagName cfg h1 c :
  handsOut system (heap w) cfg h1 c ->
  (forall fl l,
     flagsAnswered p ctx nk system userID w flagName fl ->
     Flags fl = [] ->
     liveEventsAnswered ctx nk system userID w flagName fl l ->
     LiveEvents l <> [] ->
     (GetValue Decode p ctx nk system userID w).1 =
       finish (Some cfg) (anyDecoded Decode (liveEventValues l) c) /\
     heap (GetValue Decode p ctx nk system userID w).2 !! cfg =
       Some (decodeAll Decode (liveEventValues l) c)) /\
  (forall ce,
     entryMerged Decode p ctx nk system userID w flagName ce ->
     named flagName (flags ce) = [] ->
     entryLiveEventValues ce <> [] ->
     (GetValue Decode p ctx nk system userID w).1 =
       finish (Some cfg) (anyDecoded Decode (entryLiveEventValues ce) c) /\
     heap (GetValue Decode p ctx nk system userID w).2 !! cfg =
       Some (decodeAll Decode (entryLiveEventValues ce) c)).
Proof.
  intros [Hg Hc]. split.
  - intros fl l (Hp & Hn & Hf) Hfl [Hl Hle] Hne.
    destruct (noCache_events_only _ _ _ _ _ _ _ _ _ Hp Hn Hf Hfl Hle Hl)
      as [_ H].
    destruct (H _ _ _ Hne Hg Hc) as [-> ->].
    split; [done|]. apply lookup_insert_eq.
  - intros ce Hce Hf Hne.
    destruct (entryMerged_merge _ _ _ _ _ _ _ _ Hce) as [-> ->].
    destruct (mergeEntry_no_flag system flagName ce w Hf) as [_ H].
    destruct (H _ _ _ Hne Hg Hc) as [-> ->].
    split; [done|]. apply lookup_insert_eq.
Qed.

(** A flag record followed by live-event records: the object holds the
    flag payload first and then what the live-event payloads, decoded in
    order onto it, have left. *)
Lemma flag_then_live_events p ctx nk system userID w flagName flag0 cfg h1
    c :
  handsOut system (heap w) cfg h1 c ->
  (Decode (Flag.Value flag0) c).2 = None ->
  (forall fl rest l,
     flagsAnswered p ctx nk system userID w flagName fl ->
     Flags fl = flag0 :: rest ->
     liveEventsAnswered ctx nk system userID w flagName fl l ->
     (GetValue Decode p ctx nk system userID w).1 = (Some cfg, None) /\
     heap (GetValue Decode p ctx nk system userID w).2 !! cfg =
       Some (decodeAll Decode (liveEventValues l)
               (Decode (Flag.Value flag0) c).1)) /\
  (forall ce,
     entryMerged Decode p ctx nk system userID w flagName ce ->
     named flagName (flags ce) = [flag0] ->
     (GetValue Decode p ctx nk system userID w).1 = (Some cfg, None) /\
     heap (GetValue Decode p ctx nk system userID w).2 !! cfg =
       Some (decodeAll Decode (entryLiveEventValues ce)
               (Decode (Flag.Value flag0) c).1)).
Proof.
  intros [Hg Hc] Hd. split.
  - intros fl rest l (Hp & Hn & Hf) Hfl [Hl Hle].
    destruct (noCache_flag_then_events _ _ _ _ _ _ _ _ _ _ _ _ _ _
                Hp Hn Hf Hfl Hg Hc Hd Hle Hl) as [-> ->].
    split; [done|]. apply lookup_insert_eq.
  - intros ce Hce Hf.
    destruct (entryMerged_merge _ _ _ _ _ _ _ _ Hce) as [-> ->].
    destruct (mergeEntry_one_flag _ _ _ w _ _ _ _ Hf Hg Hc Hd) as [-> ->].
    split; [done|]. apply lookup_insert_eq.
Qed.

Lemma decodeAll_last (payloads : list string) payload c :
  decodeAll Decode (payloads ++ [payload]) c =
    (Decode payload (decodeAll Decode payloads c)).1.
Proof. unfold decodeAll. by rewrite fold_left_app. Qed.


Lemma issued_two_calls p ctx nk system1 userID1 system2 userID2 w
    (sweeps : list (Ctx -> bool)) :
  let r1 := GetValue Decode p ctx nk system1 userID1 w in
  let w1 := fold_left (fun w ctxErr => sweepWorld ctxErr w) sweeps r1.2 in
  let r2 := GetValue Decode p ctx nk system2 userID2 w1 in
  issued w r2.2 = (issued w r1.2 ++ issued w1 r2.2)%list.
Proof.
  intros r1 w1 r2. apply issued_app. unfold r2.
  rewrite GetValue_calls. unfold w1 at 1. rewrite sweeps_calls. unfold r1.
  rewrite GetValue_calls. by rewrite app_assoc.
Qed.

Lemma flagsListCalls_none (cs : list Call) :
  (forall call, call ∈ cs -> isFlagsListCall call = false) ->
  flagsListCalls cs = [].
Proof.
  intros H. unfold flagsListCalls. induction cs as [|call cs IH]; [done|].
  rewrite filter_cons. rewrite decide_False.
  - apply IH. intros call' Hin. apply H. by right.
  - rewrite (H call) by left. done.
Qed.

(** C5.  With caching enabled, two calls in a row on one context, with
    any sweeps in between during which the context has not ended, make at
    most one flag lookup between them, provided no remote lookup of the
    first call fails; if the first call had a known system type the second
    makes none.  Every flag lookup of the cached path asks for
    [allFlagNames].  With caching disabled, a call with a known system type
    makes exactly one flag lookup, for the resolved flag name alone, so two
    such calls make two; a call with an unknown type makes none; and the
    cache is never written. *)
Theorem flag_lookups_of_two_calls p ctx nk system1 userID1 system2 userID2 w
    (sweeps : list (Ctx -> bool)) :
  let r1 := GetValue Decode p ctx nk system1 userID1 w in
  let w1 := fold_left (fun w ctxErr => sweepWorld ctxErr w) sweeps r1.2 in
  let r2 := GetValue Decode p ctx nk system2 userID2 w1 in
  (noCache p = false ->
   Forall (fun ctxErr => ctxErr ctx = false) sweeps ->
   Forall (fun call => callError call = None) (issued w r1.2) ->
   length (flagsListCalls (issued w r2.2)) <= 1 /\
   (is_Some (flagNameOf (GetType system1)) ->
    flagsListCalls (issued w1 r2.2) = []) /\
   (forall ctx' id names res,
      FlagsListCall ctx' id names res ∈ issued w r2.2 ->
      ctx' = ctx /\ names = allFlagNames)) /\
  (noCache p = true ->
   (forall flagName,
      flagNameOf (GetType system1) = Some flagName ->
      flagsListCalls (issued w r1.2) =
        [FlagsListCall ctx userID1 [flagName]
           (FlagsList nk (calls w) ctx userID1 [flagName])]) /\
   (flagNameOf (GetType system1) = None -> issued w r1.2 = []) /\
   (is_Some (flagNameOf (GetType system1)) ->
    is_Some (flagNameOf (GetType system2)) ->
    length (flagsListCalls (issued w r2.2)) = 2) /\
   cache r1.2 = cache w /\
   cache r2.2 = sweep_all sweeps (cache w)).
Proof.
  intros r1 w1 r2. split.
  - intros Hp Hs Hok.
    assert (is_Some (flagNameOf (GetType system1)) ->
            flagsListCalls (issued w1 r2.2) = []) as Hsecond.
    { intros [flagName Hn]. apply flagsListCalls_none. intros call Hin.
      eapply GetValue_cached_hit_no_FlagsList; [done| |exact Hin].
      unfold w1. rewrite sweeps_lookup_active by done.
      by eapply GetValue_cached_entry. }
    split; [|split; [done|]].
    + unfold r2, w1, r1. rewrite issued_two_calls. fold r1 w1 r2.
      unfold flagsListCalls. rewrite filter_app, length_app.
      destruct (flagNameOf (GetType system1)) as [flagName|] eqn:Hn.
      * unfold flagsListCalls in Hsecond. rewrite Hsecond by done.
        simpl. rewrite Nat.add_0_r. apply GetValue_FlagsList_once.
      * unfold r1 at 1. rewrite (GetValue_unknown _ _ _ _ _ _ Hn). simpl.
        rewrite issued_refl. simpl. apply GetValue_FlagsList_once.
    + intros ctx' id names res. unfold r2, w1, r1.
      rewrite issued_two_calls. fold r1 w1 r2.
      intros [Hin|Hin]%elem_of_app.
      * by destruct (GetValue_cached_FlagsList_names _ _ _ _ _ _ _ _ _ _
                       Hp Hin) as (? & ? & ?).
      * by destruct (GetValue_cached_FlagsList_names _ _ _ _ _ _ _ _ _ _
                       Hp Hin) as (? & ? & ?).
  - intros Hp. split; [|split; [|split; [|split]]].
    + intros flagName Hn. by apply GetValue_noCache_FlagsList.
    + intros Hn. unfold r1. rewrite (GetValue_unknown _ _ _ _ _ _ Hn).
      apply issued_refl.
    + intros [fn1 Hn1] [fn2 Hn2]. unfold r2, w1, r1.
      rewrite issued_two_calls. fold r1 w1 r2.
      unfold flagsListCalls. rewrite filter_app, length_app.
      unfold r1, r2.
      pose proof (GetValue_noCache_FlagsList _ ctx nk _ userID1 w _ Hp Hn1)
        as ->.
      pose proof (GetValue_noCache_FlagsList _ ctx nk _ userID2 w1 _ Hp Hn2)
        as ->.
      done.
    + by apply GetValue_noCache_cache.
    + unfold r2. rewrite GetValue_noCache_cache by done.
      unfold w1. rewrite sweeps_cache. unfold r1.
      by rewrite GetValue_noCache_cache.
Qed.


(** C2.  A flag payload whose strict decode fails, as it does for a field
    the configuration does not have, ends the call with [(nil, err)], [err]
    being the error of the decode, once the flag is reached: with caching
    disabled as soon as the flag list is answered, with caching enabled in a
    call none of whose remote lookups fails.  A live-event payload whose
    decode fails is passed over: the call returns no error, what it returns
    depends on whether any record was decoded without error, and the object
    holds what all the records, the later ones included, have left. *)
Theorem flag_decode_error_ends_call p ctx nk system userID w flagName cfg h1
    c :
  handsOut system (heap w) cfg h1 c ->
  (forall fl flag0 rest err,
     flagsAnswered p ctx nk system userID w flagName fl ->
     Flags fl = flag0 :: rest ->
     (Decode (Flag.Value flag0) c).2 = Some err ->
     (GetValue Decode p ctx nk system userID w).1 = (None, Some err)) /\
  (forall ce flag0 rest err,
     entryMerged Decode p ctx nk system userID w flagName ce ->
     named flagName (flags ce) = flag0 :: rest ->
     (Decode (Flag.Value flag0) c).2 = Some err ->
     (GetValue Decode p ctx nk system userID w).1 = (None, Some err)) /\
  (forall fl l,
     flagsAnswered p ctx nk system userID w flagName fl ->
     Flags fl = [] ->
     liveEventsAnswered ctx nk system userID w flagName fl l ->
     LiveEvents l <> [] ->
     (GetValue Decode p ctx nk system userID w).1 =
       (if anyDecoded Decode (liveEventValues l) c then Some cfg else None,
        None) /\
     heap (GetValue Decode p ctx nk system userID w).2 !! cfg =
       Some (decodeAll Decode (liveEventValues l) c)) /\
  (forall ce,
     entryMerged Decode p ctx nk system userID w flagName ce ->
     named flagName (flags ce) = [] ->
     entryLiveEventValues ce <> [] ->
     (GetValue Decode p ctx nk system userID w).1 =
       (if anyDecoded Decode (entryLiveEventValues ce) c then Some cfg
        else None, None) /\
     heap (GetValue Decode p ctx nk system userID w).2 !! cfg =
       Some (decodeAll Decode (entryLiveEventValues ce) c)) /\
  (forall flag0,
     (Decode (Flag.Value flag0) c).2 = None ->
     (forall fl rest l,
        flagsAnswered p ctx nk system userID w flagName fl ->
        Flags fl = flag0 :: rest ->
        liveEventsAnswered ctx nk system userID w flagName fl l ->
        (GetValue Decode p ctx nk system userID w).1 = (Some cfg, None) /\
        heap (GetValue Decode p ctx nk system userID w).2 !! cfg =
          Some (decodeAll Decode (liveEventValues l)
                  (Decode (Flag.Value flag0) c).1)) /\
     (forall ce,
        entryMerged Decode p ctx nk system userID w flagName ce ->
        named flagName (flags ce) = [flag0] ->
        (GetValue Decode p ctx nk system userID w).1 = (Some cfg, None) /\
        heap (GetValue Decode p ctx nk system userID w).2 !! cfg =
          Some (decodeAll Decode (entryLiveEventValues ce)
                  (Decode (Flag.Value flag0) c).1))).
Proof.
  intros Hh. pose proof Hh as [Hg Hc].
  split; [|split; [|split; [|split; [|]]]].
  - intros fl flag0 rest err (Hp & Hn & Hf) Hfl Hd.
    erewrite noCache_flag_error; eauto.
    rewrite (DecodeAt_lookup _ _ _ _ Hc). by rewrite Hd.
  - intros ce flag0 rest err Hce Hf Hd.
    destruct (entryMerged_merge _ _ _ _ _ _ _ _ Hce) as [-> _].
    erewrite mergeEntry_flag_error; eauto.
    rewrite (DecodeAt_lookup _ _ _ _ Hc). by rewrite Hd.
  - intros fl l Hfa Hfl Hla Hne.
    destruct (live_events_alone p ctx nk system userID w flagName _ _ _ Hh)
      as [H _].
    destruct (H _ _ Hfa Hfl Hla Hne) as [-> ->].
    split; [|done]. unfold finish. by case_match.
  - intros ce Hce Hf Hne.
    destruct (live_events_alone p ctx nk system userID w flagName _ _ _ Hh)
      as [_ H].
    destruct (H _ Hce Hf Hne) as [-> ->].
    split; [|done]. unfold finish. by case_match.
  - intros flag0 Hd.
    exact (flag_then_live_events _ _ _ _ _ _ _ _ _ _ _ Hh Hd).
Qed.

(** C3.  A call that returns an error returns no configuration with it.
    This covers the three ways a call fails: an unknown system type, for
    which nothing is looked up or written at all; a remote lookup that
    fails with an error other than not-found; and a flag payload whose
    decode fails. *)
Theorem error_comes_with_nil_config p ctx nk system userID w :
  (forall e,
     (GetValue Decode p ctx nk system userID w).1.2 = Some e ->
     (GetValue Decode p ctx nk system userID w).1.1 = None) /\
  (flagNameOf (GetType system) = None ->
   GetValue Decode p ctx nk system userID w =
     ((None, Some (NewError "hiro system type unknown" 3)), w)) /\
  (forall call e,
     call ∈ issued w (GetValue Decode p ctx nk system userID w).2 ->
     callError call = Some e ->
     Contains (Error e) "404 status code" = false ->
     (GetValue Decode p ctx nk system userID w).1 = (None, Some e)) /\
  (forall flagName cfg h1 c fl flag0 rest err,
     handsOut system (heap w) cfg h1 c ->
     flagsAnswered p ctx nk system userID w flagName fl ->
     Flags fl = flag0 :: rest ->
     (Decode (Flag.Value flag0) c).2 = Some err ->
     (GetValue Decode p ctx nk system userID w).1 = (None, Some err)) /\
  (forall flagName cfg h1 c ce flag0 rest err,
     handsOut system (heap w) cfg h1 c ->
     entryMerged Decode p ctx nk system userID w flagName ce ->
     named flagName (flags ce) = flag0 :: rest ->
     (Decode (Flag.Value flag0) c).2 = Some err ->
     (GetValue Decode p ctx nk system userID w).1 = (None, Some err)).
Proof.
  split; [|split; [|split; [|split]]].
  - intros e. apply GetValue_error_nil.
  - apply GetValue_unknown.
  - intros call e Hin Herr H404.
    rewrite (GetValue_remote_failure _ _ _ _ _ _ _ _ Hin Herr).
    unfold remoteFailure. by rewrite H404.
  - intros flagName cfg h1 c fl flag0 rest err [Hg Hc] (Hp & Hn & Hf) Hfl
      Hd.
    erewrite noCache_flag_error; eauto.
    rewrite (DecodeAt_lookup _ _ _ _ Hc). by rewrite Hd.
  - intros flagName cfg h1 c ce flag0 rest err [Hg Hc] Hce Hf Hd.
    destruct (entryMerged_merge _ _ _ _ _ _ _ _ Hce) as [-> _].
    erewrite mergeEntry_flag_error; eauto.
    rewrite (DecodeAt_lookup _ _ _ _ Hc). by rewrite Hd.
Qed.

(** C6.  A call in which no flag record is decoded and no live-event
    record is decoded without error returns [(nil, nil)].  No flag record
    is decoded when, with caching disabled, the answer to the flag lookup is
    empty, and when, with caching enabled, the entry has no record of the
    resolved name. *)
Theorem nothing_decoded_returns_nil p ctx nk system userID w flagName :
  (forall fl,
     flagsAnswered p ctx nk system userID w flagName fl ->
     Flags fl = [] ->
     (needsLiveEvents (GetType system) = false ->
      (GetValue Decode p ctx nk system userID w).1 = (None, None)) /\
     (forall l,
        liveEventsAnswered ctx nk system userID w flagName fl l ->
        (LiveEvents l = [] ->
         (GetValue Decode p ctx nk system userID w).1 = (None, None)) /\
        (forall cfg h1 c,
           handsOut system (heap w) cfg h1 c ->
           anyDecoded Decode (liveEventValues l) c = false ->
           (GetValue Decode p ctx nk system userID w).1 = (None, None)))) /\
  (forall ce,
     entryMerged Decode p ctx nk system userID w flagName ce ->
     named flagName (flags ce) = [] ->
     (entryLiveEventValues ce = [] ->
      (GetValue Decode p ctx nk system userID w).1 = (None, None)) /\
     (forall cfg h1 c,
        handsOut system (heap w) cfg h1 c ->
        anyDecoded Decode (entryLiveEventValues ce) c = false ->
        (GetValue Decode p ctx nk system userID w).1 = (None, None))).
Proof.
  split.
  - intros fl (Hp & Hn & Hf) Hfl. split.
    + intros Hl. by eapply noCache_no_flag.
    + intros l [Hl Hle].
      destruct (noCache_events_only _ _ _ _ _ _ _ _ _ Hp Hn Hf Hfl Hle Hl)
        as [Hnil Hsome].
      split; [done|]. intros cfg h1 c [Hg Hc] Hany.
      destruct (LiveEvents l) as [|ev evs] eqn:E; [by apply Hnil|].
      destruct (Hsome cfg h1 c ltac:(done) Hg Hc) as [-> _].
      by rewrite Hany.
  - intros ce Hce Hf.
    destruct (entryMerged_merge _ _ _ _ _ _ _ _ Hce) as [-> _].
    destruct (mergeEntry_no_flag system flagName ce w Hf) as [Hnil Hsome].
    split; [done|]. intros cfg h1 c [Hg Hc] Hany.
    destruct (entryLiveEventValues ce) as [|v vs] eqn:E; [by apply Hnil|].
    destruct (Hsome cfg h1 c ltac:(done) Hg Hc) as [-> _].
    by rewrite Hany.
Qed.

(** C7.  A call looks up live events only if the system type is
    [SystemTypeEventLeaderboards] or [SystemTypeAchievements].  For these
    types it does look them up, unless the flag lookup failed, or, with
    caching disabled, the call returned an error before (the decode of the
    flag failed), or, with caching enabled, the entry of the context holds
    live events already.  In that last case the call looks up nothing and
    leaves the cache as it is.  An entry that is in the cache before a call
    is still there after it, with the same flags, and with the same live
    events if it had any; a sweep removes entries and changes none. *)
Theorem live_events_lookup_and_cache_entry p ctx nk system userID w :
  (forall call,
     call ∈ issued w (GetValue Decode p ctx nk system userID w).2 ->
     isLiveEventsListCall call = true ->
     GetType system = SystemTypeEventLeaderboards \/
     GetType system = SystemTypeAchievements) /\
  (GetType system = SystemTypeEventLeaderboards \/
   GetType system = SystemTypeAchievements ->
   (exists call,
      call ∈ issued w (GetValue Decode p ctx nk system userID w).2 /\
      isLiveEventsListCall call = true) \/
   (exists call e,
      call ∈ issued w (GetValue Decode p ctx nk system userID w).2 /\
      isFlagsListCall call = true /\ callError call = Some e) \/
   (noCache p = true /\
    exists e, (GetValue Decode p ctx nk system userID w).1 = (None, Some e)) \/
   (noCache p = false /\
    exists ce l, cache w !! ctx = Some ce /\ liveEvents ce = Some l)) /\
  (forall ce l,
     noCache p = false ->
     cache w !! ctx = Some ce ->
     liveEvents ce = Some l ->
     issued w (GetValue Decode p ctx nk system userID w).2 = [] /\
     cache (GetValue Decode p ctx nk system userID w).2 = cache w) /\
  (forall k ce,
     cache w !! k = Some ce ->
     exists ce',
       cache (GetValue Decode p ctx nk system userID w).2 !! k = Some ce' /\
       flags ce' = flags ce /\
       (forall l, liveEvents ce = Some l -> liveEvents ce' = Some l)) /\
  (forall ctxErr k ce,
     cache (sweepWorld ctxErr w) !! k = Some ce -> cache w !! k = Some ce).
Proof.
  split; [|split; [|split; [|split]]].
  - intros call Hin Hl.
    pose proof (GetValue_LiveEventsList_needs _ _ _ _ _ _ _ Hin Hl) as Hn.
    destruct (GetType system); try discriminate Hn; auto.
  - intros Ht. apply GetValue_needs_LiveEventsList.
    by destruct Ht as [-> | ->].
  - intros ce l. apply GetValue_cached_set_no_lookup.
  - intros k ce. apply GetValue_cache_entry_kept.
  - intros ctxErr k ce. simpl. unfold sweep.
    by intros [? _]%map_lookup_filter_Some.
Qed.

(** *** Further properties of the flag names, the lookups and the cache *)

(** X1.  The flag name the [switch] resolves for a system type is one of
    [allFlagNames], every name of [allFlagNames] is resolved for some type,
    no two types share a name, the list has no name twice, and the two
    types that ask for live events have a flag name. *)
Theorem flag_names_table :
  (forall t flagName,
     flagNameOf t = Some flagName -> flagName ∈ allFlagNames) /\
  (forall flagName,
     flagName ∈ allFlagNames -> exists t, flagNameOf t = Some flagName) /\
  (forall t1 t2 flagName,
     flagNameOf t1 = Some flagName -> flagNameOf t2 = Some flagName ->
     t1 = t2) /\
  NoDup allFlagNames /\
  (forall t, needsLiveEvents t = true -> is_Some (flagNameOf t)).
Proof.
  split; [|split; [|split; [|split]]].
  - intros t flagName H. destruct t; simplify_eq/=;
      unfold allFlagNames; set_solver.
  - intros flagName H. unfold allFlagNames in H.
    repeat (apply elem_of_cons in H as [->|H]);
      [by eexists SystemTypeAchievements | by eexists SystemTypeBase
      | by eexists SystemTypeEconomy | by eexists SystemTypeEnergy
      | by eexists SystemTypeInventory | by eexists SystemTypeLeaderboards
      | by eexists SystemTypeTeams | by eexists SystemTypeTutorials
      | by eexists SystemTypeUnlockables | by eexists SystemTypeStats
      | by eexists SystemTypeEventLeaderboards
      | by eexists SystemTypeProgression | by eexists SystemTypeIncentives
      | by apply elem_of_nil in H].
  - intros t1 t2 flagName H1 H2.
    destruct t1; simplify_eq/=; destruct t2; simplify_eq/=; done.
  - apply (bool_decide_unpack _). by vm_compute.
  - intros t H. destruct t; simplify_eq/=; by eexists.
Qed.

(** X2.  Every flag lookup a call makes asks for the flag name resolved for the
    system type of the call: for that name alone with caching disabled,
    for [allFlagNames], which has it, with caching enabled. *)
Theorem flag_lookup_asks_for_resolved_name p ctx nk system userID w ctx' id
    names res :
  FlagsListCall ctx' id names res
    ∈ issued w (GetValue Decode p ctx nk system userID w).2 ->
  exists flagName,
    flagNameOf (GetType system) = Some flagName /\
    flagName ∈ names /\
    names = (if noCache p then [flagName] else allFlagNames).
Proof.
  intros Hin.
  destruct (flagNameOf (GetType system)) as [flagName|] eqn:Hn.
  - exists flagName. split; [done|].
    destruct (noCache p) eqn:Hp.
    + assert (FlagsListCall ctx' id names res
                ∈ flagsListCalls
                    (issued w (GetValue Decode p ctx nk system userID w).2))
        as Hin' by (by apply list_elem_of_filter).
      rewrite (GetValue_noCache_FlagsList _ _ _ _ _ _ _ Hp Hn) in Hin'.
      apply list_elem_of_singleton in Hin'. simplify_eq. split; [|done].
      apply list_elem_of_here.
    + destruct (GetValue_cached_FlagsList_names _ _ _ _ _ _ _ _ _ _ Hp Hin)
        as (_ & _ & ->).
      split; [|done]. destruct flag_names_table as [H _]. by eapply H.
  - rewrite (GetValue_unknown _ _ _ _ _ _ Hn) in Hin. simpl in Hin.
    rewrite issued_refl in Hin. by apply elem_of_nil in Hin.
Qed.

(** X3.  Among the remote lookups of one call there is at most one flag
    lookup, and it comes first; what follows are live-event lookups, made
    only if the flag lookup, when there is one, has not failed.  All
    lookups are made for the context and the user of the call. *)
Theorem lookups_of_one_call p ctx nk system userID w :
  exists fs ls,
    issued w (GetValue Decode p ctx nk system userID w).2 = (fs ++ ls)%list /\
    (fs = [] \/ exists names res, fs = [FlagsListCall ctx userID names res]) /\
    Forall (fun call => exists res, call = LiveEventsListCall ctx userID res)
      ls /\
    (ls = [] \/ Forall (fun call => callError call = None) fs).
Proof.
  unfold issued. unfold_GetValue.
  repeat case_match; simpl_world; simplify_eq/=;
    rewrite <- ?app_assoc, ?drop_app_length, ?drop_all; simpl.
  all: first
    [ by exists [], []; repeat split; eauto
    | by eexists [_], []; repeat split; eauto
    | by eexists [], [_]; split; [done|]; split; [eauto|];
         split; [repeat constructor; eauto|eauto]
    | by eexists [_], [_]; split; [done|]; split; [eauto|];
         split; [repeat constructor; eauto|right; repeat constructor] ].
Qed.

(** X4.  A call reads and writes the cache at its own context only: the entry
    of every other context is after the call what it was before. *)
Theorem other_contexts_untouched p ctx nk system userID w k :
  k <> ctx ->
  cache (GetValue Decode p ctx nk system userID w).2 !! k = cache w !! k.
Proof.
  intros Hk. unfold_GetValue.
  repeat case_match; simpl_world; simplify_eq/=;
    rewrite ?lookup_insert_ne by done; done.
Qed.

(** X5.  A failed remote lookup is not cached, and with caching enabled
    it comes before any decode.  The call leaves the cache as it was if the
    lookup that failed is the flag lookup, if caching is disabled, or if it
    is the only live-event lookup of the call; it leaves every
    configuration object as it was if the lookup that failed is the flag
    lookup or if caching is enabled. *)
Theorem failed_lookup_leaves_state p ctx nk system userID w call e :
  call ∈ issued w (GetValue Decode p ctx nk system userID w).2 ->
  callError call = Some e ->
  (isFlagsListCall call = true \/ noCache p = true \/
   filter (fun call' => isLiveEventsListCall call' = true)
     (issued w (GetValue Decode p ctx nk system userID w).2) = [call] ->
   cache (GetValue Decode p ctx nk system userID w).2 = cache w) /\
  (isFlagsListCall call = true \/ noCache p = false ->
   heap (GetValue Decode p ctx nk system userID w).2 = heap w).
Proof.
  intros Hin Herr. unfold_GetValue.
  repeat case_match; simpl_world; simplify_eq/=; simpl_issued Hin;
    elem_of_calls Hin; simplify_eq/=; (split; [by intros _|]);
    intros [?|?]; by simplify_eq/=.
Qed.

(** X6.  On a miss whose lookups are answered, the entry stored for the context
    holds the flag list answered and, if the system type asks for live
    events, the live-event list answered with it, otherwise an unset slot;
    nothing else in the cache changes. *)
Theorem miss_stores_the_answers p ctx nk system userID w flagName fl :
  noCache p = false ->
  flagNameOf (GetType system) = Some flagName ->
  cache w !! ctx = None ->
  FlagsList nk (calls w) ctx userID allFlagNames = inl fl ->
  (needsLiveEvents (GetType system) = false ->
   cache (GetValue Decode p ctx nk system userID w).2 =
     <[ctx := {| flags := fl; liveEvents := None |}]> (cache w)) /\
  (forall l,
     needsLiveEvents (GetType system) = true ->
     LiveEventsList nk
       (calls w ++ [FlagsListCall ctx userID allFlagNames (inl fl)]) ctx
       userID = inl l ->
     cache (GetValue Decode p ctx nk system userID w).2 =
       <[ctx := {| flags := fl; liveEvents := Some l |}]> (cache w)).
Proof.
  intros Hp Hn Hc Hf. split.
  - intros Hl. unfold_GetValue. rewrite Hn, Hp, Hc, Hf, Hl. simpl.
    repeat case_match; simpl_world; simplify_eq/=; done.
  - intros l Hl Hle. unfold_GetValue. rewrite Hn, Hp, Hc, Hf, Hl. simpl.
    rewrite Hle. simpl.
    repeat case_match; simpl_world; simplify_eq/=; done.
Qed.

(** X7.  On a hit the flags are not looked up again.  If the system type asks
    for no live events or the entry has them, nothing is looked up and the
    cache stays as it is; if it asks for them and the slot is unset, the
    live events are looked up, once, and an answer is stored in the slot
    beside the flags the entry had. *)
Theorem hit_fills_the_slot p ctx nk system userID w flagName ce :
  noCache p = false ->
  flagNameOf (GetType system) = Some flagName ->
  cache w !! ctx = Some ce ->
  (needsLiveEvents (GetType system) = false \/ is_Some (liveEvents ce) ->
   issued w (GetValue Decode p ctx nk system userID w).2 = [] /\
   cache (GetValue Decode p ctx nk system userID w).2 = cache w) /\
  (needsLiveEvents (GetType system) = true ->
   liveEvents ce = None ->
   issued w (GetValue Decode p ctx nk system userID w).2 =
     [LiveEventsListCall ctx userID
        (LiveEventsList nk (calls w) ctx userID)] /\
   forall l,
     LiveEventsList nk (calls w) ctx userID = inl l ->
     cache (GetValue Decode p ctx nk system userID w).2 =
       <[ctx := {| flags := flags ce; liveEvents := Some l |}]> (cache w)).
Proof.
  intros Hp Hn Hc. split.
  - intros Hor. unfold issued. unfold_GetValue. rewrite Hn, Hp, Hc.
    destruct Hor as [Hl | [l Hl]]; rewrite Hl;
      repeat case_match; simpl_world; simplify_eq/=;
      by rewrite drop_all.
  - intros Hl Hs. unfold issued. unfold_GetValue.
    rewrite Hn, Hp, Hc, Hl, Hs.
    repeat case_match; simpl_world; simplify_eq/=;
      rewrite ?drop_app_length; (split; [done|]);
      intros; by simplify_eq/=.
Qed.

(** X8.  Caching does not change what a call returns.  Take a context without
    an entry and a remote source that answers the lookup for the resolved
    name with the records of that name among its answer for
    [allFlagNames], at most one, and, if the system type asks for live
    events, answers the live-event lookup with the same list in both cases.
    Then the call with caching and the call without return the same values
    and leave the same configuration objects.  (When the live-event lookup
    fails the two calls differ: without caching the flag has been decoded
    before that lookup, with caching it has not.) *)
Theorem caching_is_transparent pc pn ctx nk system userID w flagName flN
    flA :
  noCache pn = true ->
  noCache pc = false ->
  flagNameOf (GetType system) = Some flagName ->
  cache w !! ctx = None ->
  FlagsList nk (calls w) ctx userID [flagName] = inl flN ->
  FlagsList nk (calls w) ctx userID allFlagNames = inl flA ->
  named flagName flA = Flags flN ->
  length (Flags flN) <= 1 ->
  (needsLiveEvents (GetType system) = true ->
   exists l,
     LiveEventsList nk
       (calls w ++ [FlagsListCall ctx userID [flagName] (inl flN)]) ctx
       userID = inl l /\
     LiveEventsList nk
       (calls w ++ [FlagsListCall ctx userID allFlagNames (inl flA)]) ctx
       userID = inl l) ->
  (GetValue Decode pn ctx nk system userID w).1 =
    (GetValue Decode pc ctx nk system userID w).1 /\
  heap (GetValue Decode pn ctx nk system userID w).2 =
    heap (GetValue Decode pc ctx nk system userID w).2.
Proof.
  intros Hpn Hpc Hn Hc HfN HfA Hnamed Hlen Hlive.
  unfold GetValue. rewrite Hn, Hpn, Hpc.
  unfold getValueNoCache, getValueCached, getOrCreate, ensureLiveEvents,
    mergeEntry.
  rewrite Hc, HfN, HfA. unfold named in Hnamed.
  destruct (needsLiveEvents (GetType system)) eqn:Hl.
  - destruct (Hlive eq_refl) as (l & HlN & HlA). simpl.
    rewrite HlA. simpl.
    rewrite decodeFlags_named, Hnamed.
    destruct (Flags flN) as [|flag0 [|? ?]] eqn:E; simpl in *; [| |lia].
    + rewrite HlN. by destruct (mergeLiveEvents _ _ _ _ _ _) as [[? ?] ?].
    + assert (Flag.Name flag0 = flagName) as ->.
      { eapply (flag_name_of_named _ flA). unfold named. by rewrite Hnamed. }
      rewrite String.eqb_refl. simpl.
      destruct (GetConfig system (heap w)) as [c h1].
      destruct (DecodeAt _ _ _ _) as [h2 [err|]]; [done|]. simpl.
      rewrite HlN.
      by destruct (mergeLiveEvents _ _ _ _ _ _) as [[? ?] ?].
  - simpl.
    rewrite decodeFlags_named, Hnamed.
    destruct (Flags flN) as [|flag0 [|? ?]] eqn:E; simpl in *; [done| |lia].
    assert (Flag.Name flag0 = flagName) as ->.
    { eapply (flag_name_of_named _ flA). unfold named. by rewrite Hnamed. }
    rewrite String.eqb_refl. simpl.
    destruct (GetConfig system (heap w)) as [c h1].
    by destruct (DecodeAt _ _ _ _) as [h2 [err|]].
Qed.

(** *** The sweep *)

Lemma sweeper_lookup_Some taken (m : gmap Ctx SatoriPersonalizerCache) k ce :
  sweeper taken m !! k = Some ce -> m !! k = Some ce.
Proof.
  revert m. induction taken as [|[|ctxErr] taken IH]; intros m H;
    simpl in H; [done..|].
  apply IH in H. unfold sweep in H.
  by apply map_lookup_filter_Some in H as [? _].
Qed.

(** X9.  The sweep removes entries and does nothing else: an entry found after
    it was there before, unchanged, and the entry of a context that has not
    ended at any of the ticks taken is still there. *)
Theorem sweeper_removes_only_ended taken
    (m : gmap Ctx SatoriPersonalizerCache) k :
  (forall ce, sweeper taken m !! k = Some ce -> m !! k = Some ce) /\
  ((forall ctxErr, tickerC ctxErr ∈ taken -> ctxErr k = false) ->
   sweeper taken m !! k = m !! k).
Proof.
  split; [intros ce; apply sweeper_lookup_Some|].
  revert m. induction taken as [|[|ctxErr] taken IH]; intros m H;
    simpl; [done..|].
  rewrite IH.
  - apply sweep_lookup_active, H. left.
  - intros e He. apply H. by right.
Qed.

(** X10.  The entry of a context that has ended when a tick is taken is gone
    after the sweep, provided the tick is taken before the context of the
    constructor is done. *)
Theorem sweeper_evicts_ended before ctxErr after
    (m : gmap Ctx SatoriPersonalizerCache) k :
  ctxDone ∉ before ->
  ctxErr k = true ->
  sweeper (before ++ tickerC ctxErr :: after) m !! k = None.
Proof.
  intros Hd Hk. revert m.
  induction before as [|[|e] before IH]; intros m; simpl.
  - destruct (sweeper after (sweep ctxErr m) !! k) as [ce|] eqn:E; [|done].
    apply sweeper_lookup_Some in E.
    by rewrite sweep_lookup_ended in E.
  - exfalso. apply Hd. left.
  - apply IH. intros H. apply Hd. by right.
Qed.

(** X11.  Once the context of the constructor is done the loop has returned:
    the ticks that come after it remove nothing. *)
Theorem sweeper_stops_when_done before after
    (m : gmap Ctx SatoriPersonalizerCache) :
  sweeper (before ++ ctxDone :: after) m = sweeper before m.
Proof.
  revert m. induction before as [|[|e] before IH]; intros m; simpl;
    [done..|apply IH].
Qed.

(** X12.  [GetValue] does not ask whether its context has ended.  Called, with
    caching, on a context whose entry a tick has just removed, it looks the
    flags up again, for [allFlagNames]. *)
Theorem ended_context_is_looked_up_again p ctx nk system userID w ctxErr
    flagName :
  noCache p = false ->
  flagNameOf (GetType system) = Some flagName ->
  ctxErr ctx = true ->
  flagsListCalls
    (issued (sweepWorld ctxErr w)
       (GetValue Decode p ctx nk system userID (sweepWorld ctxErr w)).2) =
  [FlagsListCall ctx userID allFlagNames
     (FlagsList nk (calls w) ctx userID allFlagNames)].
Proof.
  intros Hp Hn Hk. unfold flagsListCalls, issued. unfold_GetValue.
  rewrite Hn, Hp. simpl. rewrite (sweep_lookup_ended _ _ _ Hk).
  repeat case_match; simpl_world; simplify_eq/=;
    rewrite <- ?app_assoc, ?drop_app_length; simpl; done.
Qed.

(** *** The options *)

Lemma optionOf_sets o p : isSet o (optionOf o p) = true.
Proof. by destruct o. Qed.

Lemma optionOf_keeps o o' p :
  o <> o' -> isSet o (optionOf o' p) = isSet o p.
Proof. intros Hne. by destruct o, o'. Qed.

Lemma options_applied names o p :
  isSet o (fold_left (fun s opt => opt s) (map optionOf names) p) = true <->
  isSet o p = true \/ o ∈ names.
Proof.
  revert p. induction names as [|o' names IH]; intros p; simpl.
  - split; [by left|]. intros [?|H]; [done|by apply elem_of_nil in H].
  - rewrite IH. destruct (decide (o = o')) as [->|Hne].
    + rewrite optionOf_sets. split; [right; left|by left].
    + rewrite optionOf_keeps by done. rewrite elem_of_cons.
      split; [intros [?|?]; auto|intros [?|[?|?]]; auto; done].
Qed.

(** X13.  A personalizer built by [NewSatoriPersonalizer] publishes a kind of
    event, or has caching disabled, exactly when the option of that name is
    among the options it was built with: every field starts as [false], an
    option sets its own field and no other, and the order of the options
    and their repetition make no difference. *)
Theorem option_given_iff_field_set names o :
  isSet o (NewSatoriPersonalizer (map optionOf names)) = true <-> o ∈ names.
Proof.
  unfold NewSatoriPersonalizer. rewrite options_applied.
  split; [|by right]. intros [H|H]; [|done]. by destruct o.
Qed.

(** *** The not-found condition *)

Lemma prefix_app a s :
  String.prefix a s = true <-> exists post, s = a ++ post.
Proof.
  revert s. induction a as [|c a IH]; intros s.
  - split; [by exists s|]. by destruct s.
  - destruct s as [|c' s]; simpl.
    + split; [done|]. by intros [post H].
    + destruct (ascii_dec c c') as [->|Hne].
      * rewrite IH. split; intros [post H]; exists post.
        -- by rewrite H.
        -- by injection H.
      * split; [done|]. intros [post H]. by injection H as ->.
Qed.

Lemma Contains_substring s substr :
  Contains s substr = true <-> exists pre post, s = pre ++ substr ++ post.
Proof.
  induction s as [|c s IH].
  - change (Contains "" substr) with (String.prefix substr "" || false).
    rewrite orb_false_r, prefix_app. split.
    + intros [post H]. by exists "", post.
    + intros (pre & post & H). destruct pre; [by exists post|done].
  - change (Contains (String c s) substr)
      with (String.prefix substr (String c s) || Contains s substr).
    rewrite orb_true_iff, prefix_app, IH. split.
    + intros [[post H] | (pre & post & H)].
      * by exists "", post.
      * exists (String c pre), post. by rewrite H.
    + intros (pre & post & H). destruct pre as [|c' pre]; simpl in H.
      * left. by exists post.
      * right. injection H as -> H. by exists pre, post.
Qed.

(** X14.  A remote failure counts as not-found, and is answered with
    [(nil, nil)], exactly when the text "404 status code" occurs somewhere
    in the text of the error; every other failure is returned as the error
    of the call. *)
Theorem not_found_is_read_off_the_text e :
  (remoteFailure e = (None, None) <->
   exists pre post, Error e = pre ++ "404 status code" ++ post) /\
  ((forall pre post, Error e <> pre ++ "404 status code" ++ post) ->
   remoteFailure e = (None, Some e)).
Proof.
  unfold remoteFailure. split.
  - rewrite <- Contains_substring.
    by destruct (Contains (Error e) "404 status code").
  - intros H.
    destruct (Contains (Error e) "404 status code") eqn:E; [|done].
    apply Contains_substring in E as (pre & post & E). by destruct (H pre post).
Qed.

(** *** Many calls on one context *)

Lemma runSteps_entry p ctx nk steps w ce :
  noCache p = false ->
  cache w !! ctx = Some ce ->
  (forall ctxErr, tickStep ctxErr ∈ steps -> ctxErr ctx = false) ->
  exists cs ce',
    calls (runSteps Decode p ctx nk steps w) = (calls w ++ cs)%list /\
    flagsListCalls cs = [] /\
    cache (runSteps Decode p ctx nk steps w) !! ctx = Some ce' /\
    flags ce' = flags ce /\
    (forall l, liveEvents ce = Some l -> cs = [] /\ ce' = ce).
Proof.
  intros Hp. revert w ce.
  induction steps as [|[system userID|ctxErr] steps IH]; intros w ce Hc Ht;
    simpl.
  - exists [], ce. by rewrite app_nil_r.
  - destruct (GetValue_cache_entry_kept p ctx nk system userID w ctx ce Hc)
      as (ce1 & Hc1 & Hf1 & Hl1).
    destruct (IH _ ce1 Hc1) as (cs & ce' & Hcs & Hfl & Hc' & Hf' & Hl').
    { intros e He. apply Ht. by right. }
    exists (issued w (GetValue Decode p ctx nk system userID w).2 ++ cs)%list,
      ce'.
    split; [by rewrite Hcs, GetValue_calls, app_assoc|].
    split; [|split; [done|split; [congruence|]]].
    + unfold flagsListCalls in *. rewrite filter_app, Hfl, app_nil_r.
      apply flagsListCalls_none. intros call Hin.
      eapply GetValue_cached_hit_no_FlagsList; [exact Hp| |exact Hin].
      by exists ce.
    + intros l Hl.
      destruct (GetValue_cached_set_no_lookup p ctx nk system userID w ce l
                  Hp Hc Hl) as [Hi Hcache].
      rewrite Hcache, Hc in Hc1. simplify_eq.
      destruct (Hl' l Hl) as [-> ->]. by rewrite Hi.
  - destruct (IH (sweepWorld ctxErr w) ce)
      as (cs & ce' & Hcs & Hfl & Hc' & Hf' & Hl').
    { simpl. rewrite sweep_lookup_active; [done|]. apply Ht. left. }
    { intros e He. apply Ht. by right. }
    by exists cs, ce'.
Qed.

(** X15.  Once the cache has an entry for a context, no later call on that
    context looks the flags up again, however many calls follow and for
    whatever systems and users, as long as the context has not ended at any
    tick in between; the entry keeps its flags.  If the entry holds live
    events as well, these calls look up nothing at all and the entry stays
    as it is. *)
Theorem entry_serves_every_later_call p ctx nk steps w ce :
  noCache p = false ->
  cache w !! ctx = Some ce ->
  (forall ctxErr, tickStep ctxErr ∈ steps -> ctxErr ctx = false) ->
  flagsListCalls (issued w (runSteps Decode p ctx nk steps w)) = [] /\
  (exists ce',
     cache (runSteps Decode p ctx nk steps w) !! ctx = Some ce' /\
     flags ce' = flags ce) /\
  (forall l,
     liveEvents ce = Some l ->
     issued w (runSteps Decode p ctx nk steps w) = [] /\
     cache (runSteps Decode p ctx nk steps w) !! ctx = Some ce).
Proof.
  intros Hp Hc Ht.
  destruct (runSteps_entry p ctx nk steps w ce Hp Hc Ht)
    as (cs & ce' & Hcs & Hfl & Hc' & Hf' & Hl').
  rewrite (issued_app _ _ _ Hcs).
  split; [done|]. split; [by exists ce'|].
  intros l Hl. destruct (Hl' l Hl) as [-> ->]. done.
Qed.

(** *** The sweep in time *)









End Properties.

(** * The decoder for flat objects *)

Section JsonDecode.
Import Json.

Lemma setField_getField k v (c c' : ConfigObject) :
  setField k v c = Some c' -> getField k c' = Some v.
Proof.
  revert c'. induction c as [|[k0 v0] c IH]; intros c' H; simpl in H.
  - discriminate.
  - destruct (String.eqb k0 k) eqn:E.
    + injection H as <-. simpl. by rewrite E.
    + destruct (setField k v c) as [c''|]; [|discriminate].
      injection H as <-. simpl. rewrite E. by apply IH.
Qed.

Lemma setField_getField_other k k' v (c c' : ConfigObject) :
  setField k' v c = Some c' -> k <> k' -> getField k c' = getField k c.
Proof.
  revert c'. induction c as [|[k0 v0] c IH]; intros c' H Hne; simpl in H.
  - discriminate.
  - destruct (String.eqb k0 k') eqn:E.
    + injection H as <-. simpl. apply String.eqb_eq in E as ->.
      destruct (String.eqb k' k) eqn:E'; [|done].
      apply String.eqb_eq in E'. by subst.
    + destruct (setField k' v c) as [c''|]; [|discriminate].
      injection H as <-. simpl. destruct (String.eqb k0 k); [done|].
      by apply IH.
Qed.

Lemma storeMembers_saved ms (c c' : ConfigObject) saved :
  storeMembers ms c saved = (c', None) -> saved = None.
Proof.
  revert c saved. induction ms as [|[k v] ms IH]; intros c saved H;
    simpl in H.
  - by injection H.
  - destruct (setField k v c) as [c1|].
    + by apply (IH c1).
    + apply IH in H. by destruct saved.
Qed.

Lemma storeMembers_getField_other ms (c : ConfigObject) saved k :
  k ∉ ms.*1 -> getField k (storeMembers ms c saved).1 = getField k c.
Proof.
  revert c saved. induction ms as [|[k0 v0] ms IH]; intros c saved Hk;
    [done|].
  simpl in Hk. apply not_elem_of_cons in Hk as [Hne Hk]. simpl.
  destruct (setField k0 v0 c) as [c1|] eqn:E.
  - rewrite IH by done. by eapply setField_getField_other.
  - by rewrite IH.
Qed.

(** A payload that is decoded without error leaves each of its members in
    the object. *)
Lemma storeMembers_getField ms (c c' : ConfigObject) k v :
  storeMembers ms c None = (c', None) ->
  NoDup ms.*1 -> (k, v) ∈ ms -> getField k c' = Some v.
Proof.
  revert c. induction ms as [|[k0 v0] ms IH]; intros c H Hnd Hin.
  - by apply elem_of_nil in Hin.
  - simpl in Hnd. apply NoDup_cons in Hnd as [Hk0 Hnd]. simpl in H.
    destruct (setField k0 v0 c) as [c1|] eqn:E.
    + apply elem_of_cons in Hin as [Heq|Hin].
      * injection Heq as -> ->.
        replace c' with (storeMembers ms c1 None).1 by (by rewrite H).
        rewrite storeMembers_getField_other by done.
        by eapply setField_getField.
      * by apply (IH c1).
    + by apply storeMembers_saved in H.
Qed.

Lemma jsonDecode_getField payload ms (c : ConfigObject) k v :
  parseObject payload = Some ms ->
  (jsonDecode payload c).2 = None ->
  NoDup ms.*1 -> (k, v) ∈ ms ->
  getField k (jsonDecode payload c).1 = Some v.
Proof.
  unfold jsonDecode. intros -> Hd Hnd Hin.
  destruct (storeMembers ms c None) as [c' e] eqn:E. simpl in *. subst e.
  by eapply storeMembers_getField.
Qed.

End JsonDecode.

(** * Runs *)

Section Runs.
Import Json Run.

Ltac run_eq := vm_compute; reflexivity.
Ltac run_all := vm_compute; repeat constructor.

Lemma remote_failure_ends_call_witness :
  let nk := answering (inl (flagsOf [])) (inr notFound) in
  let call := LiveEventsListCall scope "user" (inr notFound) in
  call ∈ issued world (run uncached nk achievements).2 /\
  callError call = Some notFound /\
  (run uncached nk achievements).1 = (None, None).
Proof.
  intros nk call.
  assert (call ∈ issued world (run uncached nk achievements).2) as Hin
    by (vm_compute; apply list_elem_of_further, list_elem_of_here).
  split; [exact Hin|]. split; [reflexivity|].
  apply (remote_failure_ends_call jsonDecode uncached scope nk achievements
           "user" world call notFound Hin eq_refl).
  reflexivity.
Defined.

(** C1.  The flag payload is decoded first and the live-event payloads
    after it, in the order of the list, all onto the object that
    [GetConfig] handed out for the flag, each decode working on what the
    one before left: the object returned holds [decodeAll] of the
    live-event payloads over the result of the flag payload.  Hence what the
    last live-event payload of the list leaves is what is returned; with the
    decoder for flat objects, when that last payload is decoded without
    error every one of its members is in the object returned.  For
    system type Achievements, a flag that sets rewardMultiplier to 2 and one
    live event that sets it to 3, the configuration returned has
    rewardMultiplier 3, with and without caching. *)
Theorem flag_then_live_events_in_order :
  (forall (Config : Type) (Decode : string -> Config -> Config * option error)
     p ctx nk (system : System Config) userID w flagName flag0 cfg h1 c,
     handsOut system (heap w) cfg h1 c ->
     (Decode (Flag.Value flag0) c).2 = None ->
     (forall fl rest l,
        flagsAnswered p ctx nk system userID w flagName fl ->
        Flags fl = flag0 :: rest ->
        liveEventsAnswered ctx nk system userID w flagName fl l ->
        (GetValue Decode p ctx nk system userID w).1 = (Some cfg, None) /\
        heap (GetValue Decode p ctx nk system userID w).2 !! cfg =
          Some (decodeAll Decode (liveEventValues l)
                  (Decode (Flag.Value flag0) c).1)) /\
     (forall ce,
        entryMerged Decode p ctx nk system userID w flagName ce ->
        named flagName (flags ce) = [flag0] ->
        (GetValue Decode p ctx nk system userID w).1 = (Some cfg, None) /\
        heap (GetValue Decode p ctx nk system userID w).2 !! cfg =
          Some (decodeAll Decode (entryLiveEventValues ce)
                  (Decode (Flag.Value flag0) c).1))) /\
  (forall (Config : Type) (Decode : string -> Config -> Config * option error)
     payloads payload c,
     decodeAll Decode (payloads ++ [payload]) c =
       (Decode payload (decodeAll Decode payloads c)).1) /\
  (forall payloads payload ms c k v,
     parseObject payload = Some ms ->
     NoDup ms.*1 ->
     (k, v) ∈ ms ->
     (jsonDecode payload (decodeAll jsonDecode payloads c)).2 = None ->
     getField k (decodeAll jsonDecode (payloads ++ [payload]) c) = Some v) /\
  fieldOf "rewardMultiplier" (run uncached scenario achievements).1
    (run uncached scenario achievements).2 = Some 3%Z /\
  fieldOf "rewardMultiplier" (run cached scenario achievements).1
    (run cached scenario achievements).2 = Some 3%Z.
Proof.
  split; [|split; [|split; [|split]]].
  - intros Config Decode p ctx nk system userID w flagName flag0 cfg h1 c
      Hh Hd.
    exact (flag_then_live_events Decode _ _ _ _ _ _ _ _ _ _ _ Hh Hd).
  - intros Config Decode payloads payload c. apply decodeAll_last.
  - intros payloads payload ms c k v Hp Hnd Hin Hd.
    rewrite decodeAll_last. by eapply jsonDecode_getField.
  - run_eq.
  - run_eq.
Qed.

Lemma flag_then_live_events_in_order_witness :
  let flag0 := Flag.mk "Hiro-Achievements" (object (multiplier 2)) in
  let fl := flagsOf [("Hiro-Achievements", multiplier 2)] in
  let l := eventsOf [multiplier 3] in
  let ce := {| flags := fl; liveEvents := Some l |} in
  handsOut achievements (heap world) 1%positive (heap world) defaults /\
  (jsonDecode (Flag.Value flag0) defaults).2 = None /\
  flagsAnswered uncached scope scenario achievements "user" world
    "Hiro-Achievements" fl /\
  liveEventsAnswered scope scenario achievements "user" world
    "Hiro-Achievements" fl l /\
  entryMerged jsonDecode cached scope scenario achievements "user" world
    "Hiro-Achievements" ce /\
  named "Hiro-Achievements" (flags ce) = [flag0] /\
  ((run uncached scenario achievements).1 = (Some 1%positive, None) /\
   heap (run uncached scenario achievements).2 !! 1%positive =
     Some (decodeAll jsonDecode (liveEventValues l)
             (jsonDecode (Flag.Value flag0) defaults).1)) /\
  ((run cached scenario achievements).1 = (Some 1%positive, None) /\
   heap (run cached scenario achievements).2 !! 1%positive =
     Some (decodeAll jsonDecode (entryLiveEventValues ce)
             (jsonDecode (Flag.Value flag0) defaults).1)).
Proof.
  intros flag0 fl l ce.
  assert (handsOut achievements (heap world) 1%positive (heap world)
            defaults) as Hh by (split; run_eq).
  assert ((jsonDecode (Flag.Value flag0) defaults).2 = None) as Hd
    by run_eq.
  assert (flagsAnswered uncached scope scenario achievements "user" world
            "Hiro-Achievements" fl) as Hfa by (repeat split; run_eq).
  assert (liveEventsAnswered scope scenario achievements "user" world
            "Hiro-Achievements" fl l) as Hla by (split; run_eq).
  assert (entryMerged jsonDecode cached scope scenario achievements "user"
            world "Hiro-Achievements" ce) as Hce
    by (split; [run_eq|split; [run_eq|split; [run_all|run_eq]]]).
  assert (named "Hiro-Achievements" (flags ce) = [flag0]) as Hn by run_eq.
  split; [exact Hh|]. split; [exact Hd|]. split; [exact Hfa|].
  split; [exact Hla|]. split; [exact Hce|]. split; [exact Hn|].
  destruct flag_then_live_events_in_order as [H _].
  split.
  - destruct (H _ jsonDecode uncached scope scenario achievements "user"
                world "Hiro-Achievements" flag0 1%positive (heap world)
                defaults Hh Hd) as [Hu _].
    exact (Hu fl [] l Hfa eq_refl Hla).
  - destruct (H _ jsonDecode cached scope scenario achievements "user"
                world "Hiro-Achievements" flag0 1%positive (heap world)
                defaults Hh Hd) as [_ Hc].
    exact (Hc ce Hce Hn).
Defined.

(** Against C1 as it is stated: a live event that is passed over for a
    member without a field has stored its other members all the same.  The
    flag is decoded, the first live event is the last one decoded without
    error and carries 3, and the configuration returned has 7. *)
Lemma last_decoded_live_event_does_not_decide :
  let r := run uncached scenarioThenMixed achievements in
  r.1 = (Some 1%positive, None) /\
  jsonDecode (object (multiplier 2)) defaults =
    ([("rewardMultiplier", 2%Z); ("bonus", 0%Z)], None) /\
  lastDecoded jsonDecode [object (multiplier 3); object mixed]
    [("rewardMultiplier", 2%Z); ("bonus", 0%Z)] None =
    Some (object (multiplier 3)) /\
  fieldOf "rewardMultiplier" r.1 r.2 = Some 7%Z /\
  fieldOf "rewardMultiplier" (run cached scenarioThenMixed achievements).1
    (run cached scenarioThenMixed achievements).2 = Some 7%Z.
Proof. repeat split; run_eq. Qed.

(** C10.  A live-event record whose decode fails is not counted as found,
    yet the object keeps what that decode stored: a call in which only live
    events are decoded returns something exactly when one of them is decoded
    without error, and the object holds what all of them have left.  With
    the decoder for flat objects, a payload with a member for a field and a
    member without a field is rejected after the field has been written;
    on its own it leaves the call with [(nil, nil)] and the object changed,
    and followed by a record that is decoded, its value is in the
    configuration returned. *)
Theorem skipped_live_event_keeps_its_writes :
  (forall (Config : Type) (Decode : string -> Config -> Config * option error)
     p ctx nk (system : System Config) userID w flagName cfg h1 c,
     handsOut system (heap w) cfg h1 c ->
     (forall fl l,
        flagsAnswered p ctx nk system userID w flagName fl ->
        Flags fl = [] ->
        liveEventsAnswered ctx nk system userID w flagName fl l ->
        LiveEvents l <> [] ->
        (GetValue Decode p ctx nk system userID w).1 =
          finish (Some cfg) (anyDecoded Decode (liveEventValues l) c) /\
        heap (GetValue Decode p ctx nk system userID w).2 !! cfg =
          Some (decodeAll Decode (liveEventValues l) c)) /\
     (forall ce,
        entryMerged Decode p ctx nk system userID w flagName ce ->
        named flagName (flags ce) = [] ->
        entryLiveEventValues ce <> [] ->
        (GetValue Decode p ctx nk system userID w).1 =
          finish (Some cfg) (anyDecoded Decode (entryLiveEventValues ce) c) /\
        heap (GetValue Decode p ctx nk system userID w).2 !! cfg =
          Some (decodeAll Decode (entryLiveEventValues ce) c))) /\
  jsonDecode (object mixed) defaults =
    (afterMixed, Some (unknownField "bogus")) /\
  (forall p, p = uncached \/ p = cached ->
     let alone := answering (inl (flagsOf [])) (inl (eventsOf [mixed])) in
     let followed :=
       answering (inl (flagsOf []))
         (inl (eventsOf [mixed; [("bonus", 5%Z)]])) in
     (run p alone achievements).1 = (None, None) /\
     heap (run p alone achievements).2 !! 1%positive = Some afterMixed /\
     (run p followed achievements).1 = (Some 1%positive, None) /\
     heap (run p followed achievements).2 !! 1%positive =
       Some [("rewardMultiplier", 7%Z); ("bonus", 5%Z)]).
Proof.
  split; [|split].
  - intros Config Decode p ctx nk system userID w flagName cfg h1 c Hh.
    exact (live_events_alone Decode _ _ _ _ _ _ _ _ _ _ Hh).
  - run_eq.
  - intros p [-> | ->]; repeat split; run_eq.
Qed.

Lemma skipped_live_event_keeps_its_writes_witness :
  let nk := answering (inl (flagsOf [])) (inl (eventsOf [mixed])) in
  let l := eventsOf [mixed] in
  handsOut achievements (heap world) 1%positive (heap world) defaults /\
  flagsAnswered uncached scope nk achievements "user" world
    "Hiro-Achievements" (flagsOf []) /\
  liveEventsAnswered scope nk achievements "user" world
    "Hiro-Achievements" (flagsOf []) l /\
  LiveEvents l <> [] /\
  (run uncached nk achievements).1 =
    finish (Some 1%positive)
      (anyDecoded jsonDecode (liveEventValues l) defaults) /\
  heap (run uncached nk achievements).2 !! 1%positive =
    Some (decodeAll jsonDecode (liveEventValues l) defaults).
Proof.
  intros nk l.
  assert (handsOut achievements (heap world) 1%positive (heap world)
            defaults) as Hh by (split; run_eq).
  assert (flagsAnswered uncached scope nk achievements "user" world
            "Hiro-Achievements" (flagsOf [])) as Hfa
    by (repeat split; run_eq).
  assert (liveEventsAnswered scope nk achievements "user" world
            "Hiro-Achievements" (flagsOf []) l) as Hla by (split; run_eq).
  assert (LiveEvents l <> []) as Hne by discriminate.
  split; [exact Hh|]. split; [exact Hfa|]. split; [exact Hla|].
  split; [exact Hne|].
  destruct skipped_live_event_keeps_its_writes as [H _].
  destruct (H _ jsonDecode uncached scope nk achievements "user" world
              "Hiro-Achievements" 1%positive (heap world) defaults Hh)
    as [Hn _].
  exact (Hn (flagsOf []) l Hfa eq_refl Hla Hne).
Defined.

Lemma first_flag_decoded_whatever_its_name_witness :
  let fl := flagsOf [("Hiro-Economy", [("bonus", 4%Z)])] in
  let flag0 := Flag.mk "Hiro-Economy" (object [("bonus", 4%Z)]) in
  let nk := answering (inl fl) (inl (eventsOf [])) in
  Flag.Name flag0 <> "Hiro-Base" /\
  flagsAnswered uncached scope nk base "user" world "Hiro-Base" fl /\
  handsOut base (heap world) 1%positive (heap world) defaults /\
  (run uncached nk base).1 = (Some 1%positive, None) /\
  heap (run uncached nk base).2 !! 1%positive =
    Some (jsonDecode (Flag.Value flag0) defaults).1.
Proof.
  intros fl flag0 nk.
  assert (flagsAnswered uncached scope nk base "user" world "Hiro-Base" fl)
    as Hfa by (repeat split; run_eq).
  assert (handsOut base (heap world) 1%positive (heap world) defaults)
    as Hh by (split; run_eq).
  split; [discriminate|]. split; [exact Hfa|]. split; [exact Hh|].
  destruct (first_flag_decoded_whatever_its_name jsonDecode uncached scope
              nk base "user" world "Hiro-Base") as [H _].
  destruct (H fl flag0 [] 1%positive (heap world) defaults Hfa eq_refl Hh)
    as [_ Hok].
  exact (Hok eq_refl eq_refl).
Defined.

Lemma flag_decode_error_ends_call_witness :
  let fl := flagsOf [("Hiro-Achievements", mixed)] in
  let flag0 := Flag.mk "Hiro-Achievements" (object mixed) in
  let nk := answering (inl fl) (inl (eventsOf [])) in
  handsOut achievements (heap world) 1%positive (heap world) defaults /\
  flagsAnswered uncached scope nk achievements "user" world
    "Hiro-Achievements" fl /\
  (jsonDecode (Flag.Value flag0) defaults).2 = Some (unknownField "bogus") /\
  (run uncached nk achievements).1 = (None, Some (unknownField "bogus")).
Proof.
  intros fl flag0 nk.
  assert (handsOut achievements (heap world) 1%positive (heap world)
            defaults) as Hh by (split; run_eq).
  assert (flagsAnswered uncached scope nk achievements "user" world
            "Hiro-Achievements" fl) as Hfa by (repeat split; run_eq).
  assert ((jsonDecode (Flag.Value flag0) defaults).2 =
            Some (unknownField "bogus")) as Hd by run_eq.
  split; [exact Hh|]. split; [exact Hfa|]. split; [exact Hd|].
  destruct (flag_decode_error_ends_call jsonDecode uncached scope nk
              achievements "user" world "Hiro-Achievements" 1%positive
              (heap world) defaults Hh) as [H _].
  exact (H fl flag0 [] _ Hfa eq_refl Hd).
Defined.

(** Against C2 as it is stated: with caching enabled the live events are
    looked up before the flag is decoded.  The flag list is answered and
    its record for the system has a member without a field, but the
    live-event lookup fails; the call returns [(nil, nil)] for not-found
    and the error of the lookup otherwise, never the error of the decode. *)
Lemma flag_with_unknown_field_not_reached :
  let fl := flagsOf [("Hiro-Achievements", mixed)] in
  let r := run cached (answering (inl fl) (inr notFound)) achievements in
  let r' := run cached (answering (inl fl) (inr unavailable)) achievements in
  issued world r.2 =
    [FlagsListCall scope "user" allFlagNames (inl fl);
     LiveEventsListCall scope "user" (inr notFound)] /\
  named "Hiro-Achievements" fl =
    [Flag.mk "Hiro-Achievements" (object mixed)] /\
  (jsonDecode (object mixed) defaults).2 = Some (unknownField "bogus") /\
  r.1 = (None, None) /\
  r'.1 = (None, Some unavailable).
Proof. repeat split; run_eq. Qed.

Lemma error_comes_with_nil_config_witness :
  let nk := answering (inl (flagsOf [("Hiro-Achievements", mixed)]))
              (inl (eventsOf [])) in
  (run cached nk achievements).1.2 = Some (unknownField "bogus") /\
  (run cached nk achievements).1.1 = None.
Proof.
  intros nk.
  assert ((run cached nk achievements).1.2 = Some (unknownField "bogus"))
    as He by run_eq.
  split; [exact He|].
  destruct (error_comes_with_nil_config jsonDecode cached scope nk
              achievements "user" world) as [H _].
  exact (H _ He).
Defined.

(** Against C3 as it is stated: the decode of a flag payload writes the
    object in place, and a member without a field does not undo the members
    stored around it.  The call returns [(nil, err)], and the object that
    [GetConfig] handed out has changed: the one the system keeps, which the
    caller reaches through the system, and likewise a newly made one. *)
Lemma failed_flag_decode_has_written_the_object :
  let nk := answering (inl (flagsOf [("Hiro-Achievements", mixed)]))
              (inl (eventsOf [])) in
  let making := allocating SystemTypeAchievements defaults in
  heap world !! 1%positive = Some defaults /\
  (forall p, p = uncached \/ p = cached ->
     (run p nk achievements).1 = (None, Some (unknownField "bogus")) /\
     heap (run p nk achievements).2 !! 1%positive = Some afterMixed /\
     GetConfig achievements (heap (run p nk achievements).2) =
       (1%positive, heap (run p nk achievements).2) /\
     (run p nk making).1 = (None, Some (unknownField "bogus")) /\
     (GetConfig making (heap world)).1 = 2%positive /\
     (GetConfig making (heap world)).2 !! 2%positive = Some defaults /\
     heap (run p nk making).2 !! 2%positive = Some afterMixed) /\
  afterMixed <> defaults.
Proof.
  split; [run_eq|]. split; [|discriminate].
  intros p [-> | ->]; repeat split; run_eq.
Qed.

Lemma flag_lookups_of_two_calls_witness :
  let sweeps := [fun _ : Ctx => false] in
  let r1 := run cached scenario achievements in
  let w1 := fold_left (fun w ctxErr => sweepWorld ctxErr w) sweeps r1.2 in
  let r2 := GetValue jsonDecode cached scope scenario base "user" w1 in
  noCache cached = false /\
  Forall (fun ctxErr : Ctx -> bool => ctxErr scope = false) sweeps /\
  Forall (fun call => callError call = None) (issued world r1.2) /\
  length (flagsListCalls (issued world r2.2)) <= 1.
Proof.
  intros sweeps r1 w1 r2.
  assert (Forall (fun ctxErr : Ctx -> bool => ctxErr scope = false) sweeps)
    as Hs by (repeat constructor).
  assert (Forall (fun call => callError call = None) (issued world r1.2))
    as Hok by run_all.
  split; [reflexivity|]. split; [exact Hs|]. split; [exact Hok|].
  pose proof (flag_lookups_of_two_calls jsonDecode cached scope scenario
                achievements "user" base "user" world sweeps) as H.
  cbv zeta in H. destruct H as [H _].
  destruct (H eq_refl Hs Hok) as [Hlen _]. exact Hlen.
Defined.

(** Against C5 as it is stated: a call whose flag lookup fails stores no
    entry, so the next call on the same context looks the flags up again.
    Two calls in a row, nothing in between, two flag lookups. *)
Lemma failed_flag_lookup_is_repeated :
  let nk := answering (inr unavailable) (inl (eventsOf [])) in
  let r1 := run cached nk base in
  let r2 := GetValue jsonDecode cached scope nk base "user" r1.2 in
  noCache cached = false /\
  cache r1.2 !! scope = None /\
  flagsListCalls (issued world r2.2) =
    [FlagsListCall scope "user" allFlagNames (inr unavailable);
     FlagsListCall scope "user" allFlagNames (inr unavailable)].
Proof. repeat split; run_eq. Qed.

Lemma nothing_decoded_returns_nil_witness :
  let nk := answering (inl (flagsOf [])) (inl (eventsOf [])) in
  flagsAnswered uncached scope nk base "user" world "Hiro-Base"
    (flagsOf []) /\
  needsLiveEvents (GetType base) = false /\
  (run uncached nk base).1 = (None, None).
Proof.
  intros nk.
  assert (flagsAnswered uncached scope nk base "user" world "Hiro-Base"
            (flagsOf [])) as Hfa by (repeat split; run_eq).
  split; [exact Hfa|]. split; [reflexivity|].
  destruct (nothing_decoded_returns_nil jsonDecode uncached scope nk base
              "user" world "Hiro-Base") as [H _].
  destruct (H (flagsOf []) Hfa eq_refl) as [Hnil _].
  exact (Hnil eq_refl).
Defined.

(** Against C6 as it is stated: with caching disabled the first record of
    the answer is decoded without a look at its name.  No record has the
    resolved name, the system type has no live events, no lookup fails, and
    the call returns a configuration. *)
Lemma record_of_another_name_is_found :
  let fl := flagsOf [("Hiro-Economy", [("bonus", 4%Z)])] in
  let r := run uncached (answering (inl fl) (inl (eventsOf []))) base in
  flagNameOf (GetType base) = Some "Hiro-Base" /\
  named "Hiro-Base" fl = [] /\
  needsLiveEvents (GetType base) = false /\
  issued world r.2 = [FlagsListCall scope "user" ["Hiro-Base"] (inl fl)] /\
  r.1 = (Some 1%positive, None) /\
  fieldOf "bonus" r.1 r.2 = Some 4%Z.
Proof. repeat split; run_eq. Qed.

Lemma live_events_lookup_and_cache_entry_witness :
  let call := LiveEventsListCall scope "user" (inl (eventsOf [multiplier 3])) in
  call ∈ issued world (run uncached scenario achievements).2 /\
  isLiveEventsListCall call = true /\
  (GetType achievements = SystemTypeEventLeaderboards \/
   GetType achievements = SystemTypeAchievements).
Proof.
  intros call.
  assert (call ∈ issued world (run uncached scenario achievements).2)
    as Hin by (vm_compute; apply list_elem_of_further, list_elem_of_here).
  split; [exact Hin|]. split; [reflexivity|].
  destruct (live_events_lookup_and_cache_entry jsonDecode uncached scope
              scenario achievements "user" world) as [H _].
  exact (H call Hin eq_refl).
Defined.

(** Against C7 as it is stated: the system type is Achievements and no
    live events are looked up, because the flag lookup failed and the call
    returned; and in a second call on a context whose entry holds live
    events, because the cache has them. *)
Lemma achievements_without_live_events_lookup :
  let nk := answering (inr unavailable) (inl (eventsOf [multiplier 3])) in
  let r1 := run cached scenario achievements in
  let r2 := GetValue jsonDecode cached scope scenario achievements "user"
              r1.2 in
  GetType achievements = SystemTypeAchievements /\
  issued world (run uncached nk achievements).2 =
    [FlagsListCall scope "user" ["Hiro-Achievements"] (inr unavailable)] /\
  issued r1.2 r2.2 = [] /\
  r2.1 = (Some 1%positive, None).
Proof. repeat split; run_eq. Qed.

Lemma flag_names_table_witness :
  flagNameOf SystemTypeEventLeaderboards = Some "Hiro-Event-Leaderboards" /\
  "Hiro-Event-Leaderboards" ∈ allFlagNames.
Proof.
  split; [reflexivity|].
  destruct flag_names_table as [H _].
  exact (H SystemTypeEventLeaderboards "Hiro-Event-Leaderboards" eq_refl).
Defined.

Lemma flag_lookup_asks_for_resolved_name_witness :
  let fl := flagsOf [("Hiro-Achievements", multiplier 2)] in
  FlagsListCall scope "user" allFlagNames (inl fl)
    ∈ issued world (run cached scenario achievements).2 /\
  exists flagName,
    flagNameOf (GetType achievements) = Some flagName /\
    flagName ∈ allFlagNames /\
    allFlagNames = (if noCache cached then [flagName] else allFlagNames).
Proof.
  intros fl.
  assert (FlagsListCall scope "user" allFlagNames (inl fl)
            ∈ issued world (run cached scenario achievements).2) as Hin
    by (vm_compute; apply list_elem_of_here).
  split; [exact Hin|].
  exact (flag_lookup_asks_for_resolved_name jsonDecode cached scope scenario
           achievements "user" world _ _ _ _ Hin).
Defined.

Lemma other_contexts_untouched_witness :
  2%positive <> scope /\
  cache (run cached scenario achievements).2 !! 2%positive =
    cache world !! 2%positive.
Proof.
  assert (2%positive <> scope) as Hk by discriminate.
  split; [exact Hk|].
  exact (other_contexts_untouched jsonDecode cached scope scenario
           achievements "user" world 2%positive Hk).
Defined.

Lemma failed_lookup_leaves_state_witness :
  let nk := answering (inl (flagsOf [("Hiro-Achievements", multiplier 2)]))
              (inr unavailable) in
  let call := LiveEventsListCall scope "user" (inr unavailable) in
  call ∈ issued world (run cached nk achievements).2 /\
  callError call = Some unavailable /\
  filter (fun call' => isLiveEventsListCall call' = true)
    (issued world (run cached nk achievements).2) = [call] /\
  cache (run cached nk achievements).2 = cache world /\
  heap (run cached nk achievements).2 = heap world.
Proof.
  intros nk call.
  assert (call ∈ issued world (run cached nk achievements).2) as Hin
    by (vm_compute; apply list_elem_of_further, list_elem_of_here).
  assert (filter (fun call' => isLiveEventsListCall call' = true)
            (issued world (run cached nk achievements).2) = [call]) as Hl
    by run_eq.
  split; [exact Hin|]. split; [reflexivity|]. split; [exact Hl|].
  destruct (failed_lookup_leaves_state jsonDecode cached scope nk
              achievements "user" world call unavailable Hin eq_refl)
    as [Hc Hh].
  split.
  - apply Hc. right. right. exact Hl.
  - apply Hh. right. reflexivity.
Defined.

Lemma miss_stores_the_answers_witness :
  let fl := flagsOf [("Hiro-Achievements", multiplier 2)] in
  let l := eventsOf [multiplier 3] in
  cache world !! scope = None /\
  FlagsList scenario (calls world) scope "user" allFlagNames = inl fl /\
  LiveEventsList scenario
    (calls world ++ [FlagsListCall scope "user" allFlagNames (inl fl)])
    scope "user" = inl l /\
  cache (run cached scenario achievements).2 =
    <[scope := {| flags := fl; liveEvents := Some l |}]> (cache world).
Proof.
  intros fl l. split; [reflexivity|]. split; [reflexivity|].
  split; [reflexivity|].
  destruct (miss_stores_the_answers jsonDecode cached scope scenario
              achievements "user" world "Hiro-Achievements" fl
              eq_refl eq_refl eq_refl eq_refl) as [_ H].
  exact (H l eq_refl eq_refl).
Defined.

Lemma hit_fills_the_slot_witness :
  let fl := flagsOf [("Hiro-Achievements", multiplier 2)] in
  let l := eventsOf [multiplier 3] in
  let ce := {| flags := fl; liveEvents := None |} in
  let w := (run cached scenario base).2 in
  cache w !! scope = Some ce /\
  issued w (GetValue jsonDecode cached scope scenario achievements "user"
              w).2 =
    [LiveEventsListCall scope "user" (inl l)] /\
  cache (GetValue jsonDecode cached scope scenario achievements "user" w).2 =
    <[scope := {| flags := fl; liveEvents := Some l |}]> (cache w).
Proof.
  intros fl l ce w.
  assert (cache w !! scope = Some ce) as Hc by run_eq.
  split; [exact Hc|].
  destruct (hit_fills_the_slot jsonDecode cached scope scenario achievements
              "user" w "Hiro-Achievements" ce eq_refl eq_refl Hc)
    as [_ H].
  destruct (H eq_refl eq_refl) as [Hi Hs].
  split; [exact Hi|]. exact (Hs l eq_refl).
Defined.

Lemma caching_is_transparent_witness :
  let fl := flagsOf [("Hiro-Achievements", multiplier 2)] in
  cache world !! scope = None /\
  named "Hiro-Achievements" fl = Flags fl /\
  length (Flags fl) <= 1 /\
  (run uncached scenario achievements).1 =
    (run cached scenario achievements).1 /\
  heap (run uncached scenario achievements).2 =
    heap (run cached scenario achievements).2.
Proof.
  intros fl.
  assert (named "Hiro-Achievements" fl = Flags fl) as Hn by run_eq.
  assert (length (Flags fl) <= 1) as Hlen by (vm_compute; constructor).
  split; [reflexivity|]. split; [exact Hn|]. split; [exact Hlen|].
  apply (caching_is_transparent jsonDecode cached uncached scope scenario
           achievements "user" world "Hiro-Achievements" fl fl
           eq_refl eq_refl eq_refl eq_refl eq_refl eq_refl Hn Hlen).
  intros _. exists (eventsOf [multiplier 3]). split; reflexivity.
Defined.

Lemma sweeper_removes_only_ended_witness :
  let m := cache (run cached scenario achievements).2 in
  let taken := [tickerC (fun c => Pos.eqb c 2)] in
  (forall ctxErr, tickerC ctxErr ∈ taken -> ctxErr scope = false) /\
  sweeper taken m !! scope = m !! scope.
Proof.
  intros m taken.
  assert (forall ctxErr, tickerC ctxErr ∈ taken -> ctxErr scope = false)
    as H.
  { intros ctxErr Hin. apply list_elem_of_singleton in Hin.
    injection Hin as ->. reflexivity. }
  split; [exact H|].
  destruct (sweeper_removes_only_ended taken m scope) as [_ Hk].
  exact (Hk H).
Defined.

Lemma sweeper_evicts_ended_witness :
  let m := cache (run cached scenario achievements).2 in
  let before := [tickerC (fun _ => false)] in
  let ctxErr := fun c : Ctx => Pos.eqb c scope in
  (ctxDone ∉ before) /\
  ctxErr scope = true /\
  is_Some (m !! scope) /\
  sweeper (before ++ tickerC ctxErr :: [ctxDone]) m !! scope = None.
Proof.
  intros m before ctxErr.
  assert (ctxDone ∉ before) as Hd.
  { intros Hin. apply list_elem_of_singleton in Hin. discriminate Hin. }
  split; [exact Hd|]. split; [reflexivity|].
  split; [vm_compute; eexists; reflexivity|].
  exact (sweeper_evicts_ended before ctxErr [ctxDone] m scope Hd eq_refl).
Defined.

Lemma ended_context_is_looked_up_again_witness :
  let w := (run cached scenario achievements).2 in
  let ctxErr := fun _ : Ctx => true in
  is_Some (cache w !! scope) /\
  flagsListCalls
    (issued (sweepWorld ctxErr w)
       (GetValue jsonDecode cached scope scenario achievements "user"
          (sweepWorld ctxErr w)).2) =
  [FlagsListCall scope "user" allFlagNames
     (FlagsList scenario (calls w) scope "user" allFlagNames)].
Proof.
  intros w ctxErr. split; [vm_compute; eexists; reflexivity|].
  exact (ended_context_is_looked_up_again jsonDecode cached scope scenario
           achievements "user" w ctxErr "Hiro-Achievements"
           eq_refl eq_refl eq_refl).
Defined.

Lemma option_given_iff_field_set_witness :
  let names := [OptPublishEconomyEvents; OptNoCache;
                OptPublishEconomyEvents] in
  OptNoCache ∈ names /\
  noCache (NewSatoriPersonalizer (map optionOf names)) = true /\
  IsPublishEconomyEvents (NewSatoriPersonalizer (map optionOf names)) =
    true.
Proof.
  intros names.
  assert (OptNoCache ∈ names) as Hin
    by apply list_elem_of_further, list_elem_of_here.
  split; [exact Hin|]. split.
  - exact (proj2 (option_given_iff_field_set names OptNoCache) Hin).
  - apply (proj2 (option_given_iff_field_set names OptPublishEconomyEvents)).
    apply list_elem_of_here.
Defined.

Lemma not_found_is_read_off_the_text_witness :
  Error notFound = ("satori: unexpected " ++ "404 status code" ++ "") /\
  remoteFailure notFound = (None, None).
Proof.
  assert (Error notFound =
            ("satori: unexpected " ++ "404 status code" ++ "")) as H
    by reflexivity.
  split; [exact H|].
  destruct (not_found_is_read_off_the_text notFound) as [Hiff _].
  apply (proj2 Hiff). exists "satori: unexpected ", "". exact H.
Defined.

Lemma entry_serves_every_later_call_witness :
  let fl := flagsOf [("Hiro-Achievements", multiplier 2)] in
  let ce := {| flags := fl; liveEvents := Some (eventsOf [multiplier 3]) |} in
  let w := (run cached scenario achievements).2 in
  let steps :=
    [callStep base "user"; tickStep (fun c => Pos.eqb c 2);
     callStep achievements "other"] in
  cache w !! scope = Some ce /\
  (forall ctxErr, tickStep ctxErr ∈ steps -> ctxErr scope = false) /\
  issued w (runSteps jsonDecode cached scope scenario steps w) = [] /\
  cache (runSteps jsonDecode cached scope scenario steps w) !! scope =
    Some ce.
Proof.
  intros fl ce w steps.
  assert (cache w !! scope = Some ce) as Hc by run_eq.
  assert (forall ctxErr, tickStep ctxErr ∈ steps -> ctxErr scope = false)
    as Ht.
  { intros ctxErr Hin.
    apply elem_of_cons in Hin as [Hin|Hin]; [discriminate Hin|].
    apply elem_of_cons in Hin as [Hin|Hin]; [by injection Hin as ->|].
    apply list_elem_of_singleton in Hin. discriminate Hin. }
  split; [exact Hc|]. split; [exact Ht|].
  destruct (entry_serves_every_later_call jsonDecode cached scope scenario
              steps w ce eq_refl Hc Ht) as (_ & _ & H).
  exact (H _ eq_refl).
Defined.



End Runs.
